(** * OMMClient: the session engine of python-mitel, embedded in Rocq

    The development follows the two modules of the client:
    - [messagehelper.py]: the envelope codec ([construct_message],
      [parse_message]) over the DOM of [xml.dom.minidom];
    - [OMMClient.py]: the session (queues, sequence counter, correlation
      table, event slots), the commands, the transport pump [_work] and the
      dispatcher [_dispatch];
    - [types/LastPPAction.py]: the entity wrapper around an attribute map.

    Python dictionaries whose iteration order reaches the wire are
    insertion-ordered association lists; the correlation table and the
    instance dictionaries, which are only looked up by key, are [gmap]s. *)

From Stdlib Require Import ZArith String Ascii DecimalString DecimalZ.
From stdpp Require Import gmap strings list sorting.

Set Warnings "-register-all".

Local Open Scope Z_scope.

(** ** Python values and exceptions *)

Inductive pyval :=
| PNone
| PBool (b : bool)
| PInt (z : Z)
| PStr (s : string).

#[global] Instance pyval_eq_dec : EqDecision pyval.
Proof. solve_decision. Defined.

Inductive exn :=
| Exception (msg : string)
| AttributeError
| KeyError (key : string)
| TypeError
| ValueError
| IndexError
| RuntimeError
| OSError
| ExpatError.

#[global] Instance exn_eq_dec : EqDecision exn.
Proof. solve_decision. Defined.

(** [str(z)] on an [int]: the decimal numeral, with a leading [-] below 0. *)
Definition str_of_Z (z : Z) : string := NilZero.string_of_int (Z.to_int z).

(** [int(s)] on a [str] holding a plain decimal numeral. *)
Definition int_of_str (s : string) : exn + Z :=
  match NilZero.int_of_string s with
  | Some d => inr (Z.of_int d)
  | None => inl ValueError
  end.

(** [str(v)]. *)
Definition py_str (v : pyval) : string :=
  match v with
  | PNone => "None"
  | PBool true => "True"
  | PBool false => "False"
  | PInt z => str_of_Z z
  | PStr s => s
  end.

(** Truth value of [v] in a condition. *)
Definition truthy (v : pyval) : bool :=
  match v with
  | PNone => false
  | PBool b => b
  | PInt z => negb (z =? 0)
  | PStr s => negb (bool_decide (s = EmptyString))
  end.

(** [type(v) is int]: [bool] is a different type object. *)
Definition type_is_int (v : pyval) : bool :=
  match v with
  | PInt _ => true
  | _ => false
  end.

(** [s.rstrip(c)] for a one-character argument. *)
Fixpoint rstrip (c : ascii) (s : string) : string :=
  match s with
  | EmptyString => EmptyString
  | String a r =>
      match rstrip c r with
      | EmptyString => if decide (a = c) then EmptyString else String a EmptyString
      | r' => String a r'
      end
  end.

Definition NUL : ascii := Ascii.zero.

(** ** Insertion-ordered dictionaries *)

Module Dict.

Definition t (V : Type) : Type := list (string * V).

Fixpoint get {V} (k : string) (d : t V) : option V :=
  match d with
  | [] => None
  | (k', v) :: r => if decide (k = k') then Some v else get k r
  end.

Definition mem {V} (k : string) (d : t V) : bool :=
  match get k d with Some _ => true | None => false end.

(** [d[k] = v]: an existing key keeps its position. *)
Fixpoint set {V} (k : string) (v : V) (d : t V) : t V :=
  match d with
  | [] => [(k, v)]
  | (k', v') :: r =>
      if decide (k = k') then (k, v) :: r else (k', v') :: set k v r
  end.

Definition keys {V} (d : t V) : list string := d.*1.

(** A dictionary value: no key occurs twice. *)
Definition wf {V} (d : t V) : Prop := NoDup (keys d).

(** The dictionary built by assigning the items of [l] in order. *)
Definition of_items {V} (l : list (string * V)) : t V :=
  fold_left (fun acc kv => set kv.1 kv.2 acc) l [].

End Dict.

(** ** The DOM of [xml.dom.minidom], as far as the codec uses it

    An element has a tag name, an attribute map and child nodes; every other
    node kind has [attributes = None] and no [tagName]. *)

Inductive Node :=
| Element (tagName : string) (attributes : Dict.t string) (childNodes : list Node)
| Text (data : string).

(** [element.setAttribute(name, value)]. *)
Definition setAttribute (name value : string) (n : Node) : Node :=
  match n with
  | Element t a c => Element t (Dict.set name value a) c
  | Text d => Text d
  end.

(** [element.appendChild(child)]. *)
Definition appendChild (child : Node) (n : Node) : Node :=
  match n with
  | Element t a c => Element t a (c ++ [child])
  | Text d => Text d
  end.

(** ** messagehelper.py *)

(** What a child tag decodes to: one attribute map, or a list of them. *)
Inductive childval :=
| One (m : Dict.t string)
| Many (l : list (Dict.t string)).

#[global] Instance childval_eq_dec : EqDecision childval.
Proof. solve_decision. Defined.

Definition envelope : Type := string * Dict.t string * Dict.t childval.

(** The loop over [node.attributes.item(i)]: [d[item.name] = item.value]. *)
Definition read_attributes (a : Dict.t string) : Dict.t string :=
  Dict.of_items a.

(** Lines 26-33: what one child does to [children]. *)
Definition add_child (childname : string) (new_child : Dict.t string)
    (children : Dict.t childval) : Dict.t childval :=
  match Dict.get childname children with
  | Some v =>
      let l := match v with One m => [m] | Many l => l end in
      Dict.set childname (Many (l ++ [new_child])) children
  | None => Dict.set childname (One new_child) children
  end.

Definition MAX_CHILDREN : Z := 5000.

(** The [while child is not None and child_num < 5000] loop; the node list is
    the chain of [nextSibling]s starting at [child]. *)
Fixpoint parse_children (child_num : Z) (siblings : list Node)
    (children : Dict.t childval) : exn + Dict.t childval :=
  match siblings with
  | [] => inr children
  | child :: rest =>
      if child_num <? MAX_CHILDREN then
        match child with
        | Element childname a _ =>
            parse_children (child_num + 1) rest
              (add_child childname (read_attributes a) children)
        | Text _ => inl AttributeError
        end
      else inr children
  end.

(** Lines 7-37 of [parse_message], on the parsed document element. *)
Definition parse_dom (root : Node) : exn + envelope :=
  match root with
  | Element name a childs =>
      match parse_children 0 childs [] with
      | inr children => inr (name, read_attributes a, children)
      | inl e => inl e
      end
  | Text _ => inl AttributeError
  end.

(** Lines 41-54 of [construct_message]: the document element that is
    serialised. *)
Definition construct_dom (name : string) (attributes : option (Dict.t pyval))
    (children : option (Dict.t (option (Dict.t pyval)))) : Node :=
  let attributes := default [] attributes in
  let root_element :=
    fold_left (fun root kv => setAttribute kv.1 (py_str kv.2) root)
      attributes (Element name [] []) in
  match children with
  | Some children =>
      fold_left
        (fun root kv =>
           let new_child :=
             match kv.2 with
             | Some val =>
                 fold_left (fun c av => setAttribute av.1 (py_str av.2) c)
                   val (Element kv.1 [] [])
             | None => Element kv.1 [] []
             end in
           appendChild new_child root)
        children root_element
  | None => root_element
  end.

(** The XML text layer, [toxml] and [parseString], belongs to the standard
    library; the codec is parameterised by it. *)
Section Codec.

Variable toxml : Node -> string.
Variable parseString : string -> exn + Node.

Definition parse_message (messagedata : string) : exn + envelope :=
  match parseString (rstrip NUL messagedata) with
  | inr root => parse_dom root
  | inl e => inl e
  end.

Definition construct_message (name : string) (attributes : option (Dict.t pyval))
    (children : option (Dict.t (option (Dict.t pyval)))) : string :=
  toxml (construct_dom name attributes children).

End Codec.


(** ** OMMClient.py: the session *)

(** [name.split(sep)] for a one-character separator. *)
Fixpoint split (sep : ascii) (s : string) : list string :=
  match s with
  | EmptyString => [EmptyString]
  | String a r =>
      if decide (a = sep) then EmptyString :: split sep r
      else match split sep r with
           | w :: ws => String a w :: ws
           | [] => [String a EmptyString]
           end
  end.

(** An entry of [_events]: the [threading.Event] flag and the raw response
    once the dispatcher has stored it. *)
Record waiter := Waiter {
  event : bool;
  response : option string
}.

(** The life of an [ssl.SSLSocket]: wrapped and not yet connected,
    connected, or closed; a closed socket remembers whether it had been
    connected ([SSLSocket._connected] is never reset). *)
Inductive socket_status :=
| Unconnected
| Connected
| Closed (was_connected : bool).

#[global] Instance socket_status_eq_dec : EqDecision socket_status.
Proof. solve_decision. Defined.

(** The TLS socket as the pump sees it: its status, the frames written so
    far, and the chunks that [recv] will return (none pending:
    [socket.timeout]). *)
Record ssl_socket := Socket {
  status : socket_status;
  written : list string;
  inbound : list string
}.

Definition connected (s : ssl_socket) : bool := bool_decide (status s = Connected).

(** Event handlers are callables of the application; a call is recorded with
    its arguments. *)
Definition handler : Type := nat.

(** [_worker] and [_dispatcher] tell whether [start()] has been called on
    the thread; a started thread runs its loop until [_terminate] is set. *)
Record OMMClient := Client {
  _ssl_socket : ssl_socket;
  _send_q : list string;
  _recv_q : list string;
  _worker : bool;
  _dispatcher : bool;
  _sequence : Z;
  _terminate : bool;
  _events : gmap string waiter;
  _modulus : option string;
  _exponent : option string;
  _logged_in : bool;
  omm_status : Dict.t string;
  omm_versions : Dict.t string;
  __dict__ : gmap string (list handler);
  calls : list (handler * envelope)
}.

Definition __events__ : list string :=
  ["on_RFPState"; "on_HealthState"; "on_DECTSubscriptionMode"; "on_PPDevCnf"].

(** [__init__]: nothing connected, nothing started. *)
Definition __init__ : OMMClient :=
  {| _ssl_socket := Socket Unconnected [] [];
     _send_q := []; _recv_q := [];
     _worker := false; _dispatcher := false;
     _sequence := 0; _terminate := false; _events := ∅;
     _modulus := None; _exponent := None; _logged_in := false;
     omm_status := []; omm_versions := [];
     __dict__ := ∅; calls := [] |}.

Definition with_socket (f : ssl_socket -> ssl_socket) (c : OMMClient) : OMMClient :=
  Client (f (_ssl_socket c)) (_send_q c) (_recv_q c) (_worker c) (_dispatcher c)
    (_sequence c) (_terminate c) (_events c) (_modulus c) (_exponent c)
    (_logged_in c) (omm_status c) (omm_versions c) (__dict__ c) (calls c).

Definition with_send_q (f : list string -> list string) (c : OMMClient) : OMMClient :=
  Client (_ssl_socket c) (f (_send_q c)) (_recv_q c) (_worker c) (_dispatcher c)
    (_sequence c) (_terminate c) (_events c) (_modulus c) (_exponent c)
    (_logged_in c) (omm_status c) (omm_versions c) (__dict__ c) (calls c).

Definition with_recv_q (f : list string -> list string) (c : OMMClient) : OMMClient :=
  Client (_ssl_socket c) (_send_q c) (f (_recv_q c)) (_worker c) (_dispatcher c)
    (_sequence c) (_terminate c) (_events c) (_modulus c) (_exponent c)
    (_logged_in c) (omm_status c) (omm_versions c) (__dict__ c) (calls c).

Definition with_threads (w d : bool) (c : OMMClient) : OMMClient :=
  Client (_ssl_socket c) (_send_q c) (_recv_q c) w d
    (_sequence c) (_terminate c) (_events c) (_modulus c) (_exponent c)
    (_logged_in c) (omm_status c) (omm_versions c) (__dict__ c) (calls c).

Definition with_sequence (z : Z) (c : OMMClient) : OMMClient :=
  Client (_ssl_socket c) (_send_q c) (_recv_q c) (_worker c) (_dispatcher c)
    z (_terminate c) (_events c) (_modulus c) (_exponent c)
    (_logged_in c) (omm_status c) (omm_versions c) (__dict__ c) (calls c).

Definition with_terminate (b : bool) (c : OMMClient) : OMMClient :=
  Client (_ssl_socket c) (_send_q c) (_recv_q c) (_worker c) (_dispatcher c)
    (_sequence c) b (_events c) (_modulus c) (_exponent c)
    (_logged_in c) (omm_status c) (omm_versions c) (__dict__ c) (calls c).

Definition with_events (f : gmap string waiter -> gmap string waiter)
    (c : OMMClient) : OMMClient :=
  Client (_ssl_socket c) (_send_q c) (_recv_q c) (_worker c) (_dispatcher c)
    (_sequence c) (_terminate c) (f (_events c)) (_modulus c) (_exponent c)
    (_logged_in c) (omm_status c) (omm_versions c) (__dict__ c) (calls c).

Definition with_key (m e : option string) (c : OMMClient) : OMMClient :=
  Client (_ssl_socket c) (_send_q c) (_recv_q c) (_worker c) (_dispatcher c)
    (_sequence c) (_terminate c) (_events c) m e
    (_logged_in c) (omm_status c) (omm_versions c) (__dict__ c) (calls c).

Definition with_logged_in (b : bool) (c : OMMClient) : OMMClient :=
  Client (_ssl_socket c) (_send_q c) (_recv_q c) (_worker c) (_dispatcher c)
    (_sequence c) (_terminate c) (_events c) (_modulus c) (_exponent c)
    b (omm_status c) (omm_versions c) (__dict__ c) (calls c).

Definition with_status (d : Dict.t string) (c : OMMClient) : OMMClient :=
  Client (_ssl_socket c) (_send_q c) (_recv_q c) (_worker c) (_dispatcher c)
    (_sequence c) (_terminate c) (_events c) (_modulus c) (_exponent c)
    (_logged_in c) d (omm_versions c) (__dict__ c) (calls c).

Definition with_versions (d : Dict.t string) (c : OMMClient) : OMMClient :=
  Client (_ssl_socket c) (_send_q c) (_recv_q c) (_worker c) (_dispatcher c)
    (_sequence c) (_terminate c) (_events c) (_modulus c) (_exponent c)
    (_logged_in c) (omm_status c) d (__dict__ c) (calls c).

Definition with_dict (f : gmap string (list handler) -> gmap string (list handler))
    (c : OMMClient) : OMMClient :=
  Client (_ssl_socket c) (_send_q c) (_recv_q c) (_worker c) (_dispatcher c)
    (_sequence c) (_terminate c) (_events c) (_modulus c) (_exponent c)
    (_logged_in c) (omm_status c) (omm_versions c) (f (__dict__ c)) (calls c).

Definition with_calls (f : list (handler * envelope) -> list (handler * envelope))
    (c : OMMClient) : OMMClient :=
  Client (_ssl_socket c) (_send_q c) (_recv_q c) (_worker c) (_dispatcher c)
    (_sequence c) (_terminate c) (_events c) (_modulus c) (_exponent c)
    (_logged_in c) (omm_status c) (omm_versions c) (__dict__ c) (f (calls c)).

(** ** Calls that may block

    A method call on the session either returns, raises, or suspends in
    [Event.wait()] on the waiter registered under [key]; the continuation
    runs on the session as the other threads have left it by then. *)

Inductive outcome (A : Type) :=
| Returned (a : A) (self : OMMClient)
| Raised (e : exn) (self : OMMClient)
| Waiting (key : string) (self : OMMClient) (k : OMMClient -> outcome A).

Arguments Returned {A} a self.
Arguments Raised {A} e self.
Arguments Waiting {A} key self k.

Definition M (A : Type) : Type := OMMClient -> outcome A.

Definition ret {A} (a : A) : M A := fun self => Returned a self.

Definition raise {A} (e : exn) : M A := fun self => Raised e self.

Fixpoint bind_outcome {A B} (o : outcome A) (f : A -> M B) : outcome B :=
  match o with
  | Returned a self => f a self
  | Raised e self => Raised e self
  | Waiting key self k => Waiting key self (fun self' => bind_outcome (k self') f)
  end.

Definition bind {A B} (c : M A) (f : A -> M B) : M B :=
  fun self => bind_outcome (c self) f.

Definition lift {A} (r : exn + A) : M A :=
  match r with
  | inr a => ret a
  | inl e => raise e
  end.

Definition modify (f : OMMClient -> OMMClient) : M unit :=
  fun self => Returned tt (f self).

Declare Scope py_scope.
Delimit Scope py_scope with py.
Notation "x <- c ;; k" := (bind c (fun x => k))
  (at level 100, c at next level, right associativity) : py_scope.
Notation "c ;; k" := (bind c (fun _ => k))
  (at level 100, right associativity) : py_scope.
Local Open Scope py_scope.

(** The state a call is in when it returns, raises or suspends. *)
Definition state_of {A} (o : outcome A) : OMMClient :=
  match o with
  | Returned _ self => self
  | Raised _ self => self
  | Waiting _ self _ => self
  end.

(** A suspended call continues once the event of its waiter is set. *)
Definition resume {A} (o : outcome A) (self : OMMClient) : option (outcome A) :=
  match o with
  | Waiting key _ k =>
      match _events self !! key with
      | Some w => if event w then Some (k self) else None
      | None => None
      end
  | _ => None
  end.

(** [d[k]] on a dictionary. *)
Definition getitem {V} (k : string) (d : Dict.t V) : exn + V :=
  match Dict.get k d with
  | Some v => inr v
  | None => inl (KeyError k)
  end.

(** [v[k]] on a decoded child: a list cannot be indexed by a string. *)
Definition child_getitem (k : string) (v : childval) : exn + string :=
  match v with
  | One m => getitem k m
  | Many _ => inl TypeError
  end.

(** Truth value of a decoded child: an empty map or list is false. *)
Definition child_truthy (v : childval) : bool :=
  match v with
  | One [] | Many [] => false
  | _ => true
  end.

(** Modelled from the spec: the entity wrappers [PPDev] and [PPUser] of
    [types/], whose sources are not part of this development; a wrapper is
    constructed from the session handle and an attribute map, and the session
    handle is the one client at hand. *)
Inductive entity :=
| PPDev (attributes : Dict.t string)
| PPUser (attributes : Dict.t string).

(** The arguments of the wrapper constructors come from [children[tag]]. *)
Definition as_attributes (v : childval) : exn + Dict.t string :=
  match v with
  | One m => inr m
  | Many _ => inl AttributeError
  end.

(** ** types/LastPPAction.py *)

Module LastPPAction.

(** What an instance dictionary holds: plain values, the clock reading of
    [time.time()], the session handle, and the dictionary of changes. *)
Inductive value :=
| VPy (v : pyval)
| VTime (t : Z)
| VClient
| VDict (d : list (string * value))
| VLock
| VMethod (name : string).

(** The instance [__dict__]. *)
Definition t : Type := gmap string value.

(** The class body: the fields bound to [None], the lock, and the
    methods. *)
Definition class_body : Dict.t value :=
  [("ppn", VPy PNone); ("trType", VPy PNone); ("rfpId", VPy PNone);
   ("relTime", VPy PNone); ("localTimeStamp", VPy PNone);
   ("_ommclient", VPy PNone); ("_changes", VPy PNone); ("_changelock", VLock);
   ("__init__", VMethod "__init__"); ("__getattr__", VMethod "__getattr__");
   ("__setattr__", VMethod "__setattr__");
   ("_init_from_attributes", VMethod "_init_from_attributes");
   ("get_attributes", VMethod "get_attributes"); ("commit", VMethod "commit")].

(** Names of the form [__x__]: those that a class inherits from [object]
    ([__class__], [__dict__], [__repr__], ...) are resolved by the
    interpreter, some of them before the instance dictionary is looked at.
    The statements about attribute access are about the other names. *)
Definition dunder (name : string) : bool :=
  match name with
  | String a (String b _) => bool_decide (a = "_"%char) && bool_decide (b = "_"%char)
  | _ => false
  end.

Definition _init_from_attributes (attributes : Dict.t value) (self : t) : t :=
  fold_left (fun d kv => <[kv.1 := kv.2]> d) attributes self.

(** [LastPPAction(ommclient, attributes)], with [now] the value of
    [time.time()]. *)
Definition __init__ (attributes : option (Dict.t value)) (now : Z) : t :=
  let self := <["_ommclient" := VClient]> (∅ : t) in
  let self := <["_changes" := VDict []]> self in
  let self :=
    match attributes with
    | Some a => _init_from_attributes a self
    | None => self
    end in
  <["localTimeStamp" := VTime now]> self.

(** [obj.item] for a name that [object] does not define: the instance
    dictionary, then the class body, then [__getattr__], which indexes the
    instance dictionary. *)
Definition getattr (item : string) (self : t) : exn + value :=
  match self !! item with
  | Some v => inr v
  | None =>
      match Dict.get item class_body with
      | Some v => inr v
      | None => inl (KeyError item)
      end
  end.

(** [obj.key = value]: the guard, then under [with self._changelock] the
    two item assignments. What [self._changelock] names must be a context
    manager, and what [self._changes] names must take item assignment. *)
Definition __setattr__ (key : string) (v : value) (self : t) : exn + t :=
  if decide (key = "uid" ∧ is_Some (self !! "uid")) then
    inl (Exception "Cannot change uid !")
  else
    match getattr "_changelock" self with
    | inr VLock =>
        match getattr "_changes" self with
        | inr (VDict changes) =>
            let self := <["_changes" := VDict (Dict.set key v changes)]> self in
            inr (<[key := v]> self)
        | inr _ => inl TypeError
        | inl e => inl e
        end
    | inr _ => inl TypeError
    | inl e => inl e
    end.

End LastPPAction.

Section Session.

Variable toxml : Node -> string.
Variable parseString : string -> exn + Node.

(** The PIN encryption primitive of [utils], outside this development:
    [encrypt_pin(pin, modulus, exponent)] yields the ciphertext string. *)
Variable encrypt_pin : pyval -> option string -> option string -> string.

(** [str.upper] of the interpreter, which follows the Unicode case
    mapping. *)
Variable upper : string -> string.

Definition get_self : M OMMClient := fun self => Returned self self.

Definition _get_sequence : M Z := fun self =>
  let sequence := _sequence self in
  Returned sequence (with_sequence (_sequence self + 1) self).

Definition _awaitresponse (message : string) : M envelope := fun self =>
  match _events self !! message with
  | Some _ => Raised (Exception ("Already waiting for " +:+ message)) self
  | None =>
      let self := with_events (insert message (Waiter false None)) self in
      Waiting message self (fun self =>
        match _events self !! message with
        | Some w =>
            match response w with
            | Some raw =>
                match parse_message parseString raw with
                | inr data => Returned data (with_events (delete message) self)
                | inl e => Raised e self
                end
            | None => Raised (KeyError "response") self
            end
        | None => Raised (KeyError message) self
        end)
  end.

Definition _sendrequest (message : string) (messagedata : option (Dict.t pyval))
    (children : option (Dict.t (option (Dict.t pyval)))) : M envelope :=
  let msg := construct_message toxml message messagedata children in
  modify (with_send_q (fun q => q ++ [msg])) ;;
  let responsemssage := message +:+ "Resp" in
  let responsemssage :=
    match messagedata with
    | Some d =>
        match Dict.get "seq" d with
        | Some seq => responsemssage +:+ py_str seq
        | None => responsemssage
        end
    | None => responsemssage
    end in
  _awaitresponse responsemssage.

Definition get_versions : M (Dict.t string) :=
  r <- _sendrequest "GetVersions" None None ;;
  let '(message, attributes, children) := r in
  ret attributes.

(** [self._ssl_socket.connect((host, port))] against a server that is
    reachable: an [SSLSocket] that is or has been connected refuses with
    [ValueError], a socket closed before it was connected has no file
    descriptor left. *)
Definition connect : M unit := fun self =>
  match status (_ssl_socket self) with
  | Unconnected =>
      Returned tt (with_socket (fun s => Socket Connected (written s) (inbound s)) self)
  | Connected | Closed true => Raised ValueError self
  | Closed false => Raised OSError self
  end.

(** [Thread.start()]: a thread can be started once. *)
Definition start_worker : M unit := fun self =>
  if _worker self then Raised RuntimeError self
  else Returned tt (with_threads true (_dispatcher self) self).

Definition start_dispatcher : M unit := fun self =>
  if _dispatcher self then Raised RuntimeError self
  else Returned tt (with_threads (_worker self) true self).


Definition login (user password ommsync : pyval) : M unit :=
  let messagedata :=
    [("protocolVersion", PStr "45"); ("username", user); ("password", password)] in
  let messagedata :=
    if decide (ommsync = PBool true)
    then Dict.set "UserDeviceSyncClient" (PStr "true") messagedata
    else Dict.set "OMPClient" (PStr "1") messagedata in
  connect ;;
  start_worker ;;
  start_dispatcher ;;
  r <- _sendrequest "Open" (Some messagedata) None ;;
  let '(message, attributes, children) := r in
  pk <- lift (getitem "publicKey" children) ;;
  modulus <- lift (child_getitem "modulus" pk) ;;
  pk <- lift (getitem "publicKey" children) ;;
  exponent <- lift (child_getitem "exponent" pk) ;;
  modify (with_key (Some modulus) (Some exponent)) ;;
  modify (with_status attributes) ;;
  versions <- get_versions ;;
  modify (with_versions versions) ;;
  modify (with_logged_in true).

Definition _ensure_login : M unit := fun self =>
  if _logged_in self then Returned tt self
  else Raised (Exception "OMMClient not logged in") self.

Definition get_account (uid : pyval) : M (Dict.t string) :=
  _ensure_login ;;
  r <- _sendrequest "GetAccount" (Some [("id", uid)]) None ;;
  let '(message, attributes, children) := r in
  ret attributes.

Definition subscribe_event (event : pyval) : M unit :=
  _ensure_login ;;
  _sendrequest "Subscribe" (Some [])
    (Some [("e", Some [("cmd", PStr "On"); ("eventType", event)])]) ;;
  ret tt.

Definition get_sari : M (option string) :=
  _ensure_login ;;
  r <- _sendrequest "GetSARI" None None ;;
  let '(message, attributes, children) := r in
  ret (Dict.get "sari" attributes).

Definition get_systemname : M (option string) :=
  _ensure_login ;;
  r <- _sendrequest "GetSystemName" None None ;;
  let '(message, attributes, children) := r in
  ret (Dict.get "name" attributes).

Definition get_limits : M (Dict.t string) :=
  _ensure_login ;;
  r <- _sendrequest "Limits" None None ;;
  let '(message, attributes, children) := r in
  ret attributes.

Definition modes : Dict.t string :=
  [("OFF", "Off"); ("WILDCARD", "Wildcard"); ("CONFIGURED", "Configured")].

Definition set_subscription (mode : option string) (timeout : pyval) : M bool :=
  match mode with
  | None => ret false
  | Some mode =>
      match Dict.get (upper mode) modes with
      | None => ret false
      | Some m =>
          let messagedata := Dict.set "mode" (PStr m) [] in
          if decide (upper mode = "WILDCARD") then
            if decide (timeout = PNone) then ret false
            else
              let messagedata := Dict.set "timeout" timeout messagedata in
              _sendrequest "SetDECTSubscriptionMode" (Some messagedata) None ;;
              ret true
          else
            _sendrequest "SetDECTSubscriptionMode" (Some messagedata) None ;;
            ret true
      end
  end.

Definition set_user_pin (uid pin : pyval) : M bool :=
  self <- get_self ;;
  let messagedata :=
    [("user", Some [("uid", uid);
                    ("pin", PStr (encrypt_pin pin (_modulus self) (_exponent self)))])] in
  seq <- _get_sequence ;;
  r <- _sendrequest "SetPPUser" (Some [("seq", PStr (str_of_Z seq))]) (Some messagedata) ;;
  let '(message, attributes, children) := r in
  if (0 <? length children)%nat then
    lift (getitem "user" children) ;;
    ret true
  else ret false.

Definition get_device (ppn : pyval) : M (option entity) :=
  seq <- _get_sequence ;;
  r <- _sendrequest "GetPPDev" (Some [("seq", PInt seq); ("ppn", ppn)]) None ;;
  let '(message, attributes, children) := r in
  match Dict.get "pp" children with
  | Some pp =>
      v <- lift (child_getitem "ppn" pp) ;;
      if decide (v = py_str ppn) then
        a <- lift (as_attributes pp) ;;
        ret (Some (PPDev a))
      else ret None
  | None => ret None
  end.

Definition get_user (uid : pyval) : M (option entity) :=
  seq <- _get_sequence ;;
  r <- _sendrequest "GetPPUser" (Some [("seq", PInt seq); ("uid", uid)]) None ;;
  let '(message, attributes, children) := r in
  match Dict.get "user" children with
  | Some user =>
      v <- lift (child_getitem "uid" user) ;;
      if decide (v = py_str uid) then
        a <- lift (as_attributes user) ;;
        ret (Some (PPUser a))
      else ret None
  | None => ret None
  end.

(** [LastPPAction(self, children["pp"])] at clock reading [now]. *)
Definition new_LastPPAction (v : childval) (now : Z) : exn + LastPPAction.t :=
  match as_attributes v with
  | inr a =>
      inr (LastPPAction.__init__
             (Some (prod_map id (fun s => LastPPAction.VPy (PStr s)) <$> a)) now)
  | inl e => inl e
  end.

Definition get_last_pp_dev_action (ppn : pyval) (now : Z) : M (option LastPPAction.t) :=
  seq <- _get_sequence ;;
  r <- _sendrequest "GetLastPPDevAction" (Some [("seq", PInt seq); ("ppn", ppn)]) None ;;
  let '(message, attributes, children) := r in
  match Dict.get "pp" children with
  | Some pp =>
      if child_truthy pp then
        action <- lift (new_LastPPAction pp now) ;;
        ret (Some action)
      else ret None
  | None => ret None
  end.

Definition set_user_relation_dynamic (uid : pyval) : M (Dict.t string) :=
  seq <- _get_sequence ;;
  let messagedata := [("seq", PInt seq); ("uid", uid); ("relType", PStr "Dynamic")] in
  r <- _sendrequest "SetPPUserDevRelation" (Some messagedata) None ;;
  let '(message, attributes, children) := r in
  ret attributes.

Definition set_user_relation_fixed (uid : pyval) : M (Dict.t string) :=
  seq <- _get_sequence ;;
  let messagedata := [("seq", PInt seq); ("uid", uid); ("relType", PStr "Fixed")] in
  r <- _sendrequest "SetPPUserDevRelation" (Some messagedata) None ;;
  let '(message, attributes, children) := r in
  ret attributes.

(** The guard of lines 543 and 577:
    [(type(uid) is not int or type(ppn) is not int) or (ppn <= 0 or uid <= 0)]. *)
Definition bad_ids (uid ppn : pyval) : bool :=
  if negb (type_is_int uid) || negb (type_is_int ppn) then true
  else
    match uid, ppn with
    | PInt u, PInt p => (p <=? 0) || (u <=? 0)
    | _, _ => true
    end.

Definition detach_user_device (uid ppn : pyval) : M bool :=
  if bad_ids uid ppn then ret false
  else
    let messagedata :=
      [("pp", Some [("uid", PInt 0); ("relType", PStr "Unbound"); ("ppn", ppn)]);
       ("user", Some [("uid", uid); ("relType", PStr "Unbound"); ("ppn", PInt 0)])] in
    seq <- _get_sequence ;;
    r <- _sendrequest "SetPP" (Some [("seq", PInt seq)]) (Some messagedata) ;;
    let '(message, attributes, children) := r in
    match Dict.get "pp" children with
    | Some pp =>
        v <- lift (child_getitem "uid" pp) ;;
        ret (bool_decide (v = py_str uid))
    | None => ret false
    end.

Definition attach_user_device (uid ppn : pyval) : M bool :=
  if bad_ids uid ppn then ret false
  else
    let messagedata :=
      [("pp", Some [("uid", uid); ("relType", PStr "Dynamic"); ("ppn", ppn)]);
       ("user", Some [("uid", uid); ("relType", PStr "Dynamic"); ("ppn", ppn)])] in
    seq <- _get_sequence ;;
    r <- _sendrequest "SetPP" (Some [("seq", PInt seq)]) (Some messagedata) ;;
    let '(message, attributes, children) := r in
    match Dict.get "pp" children with
    | Some pp =>
        v <- lift (child_getitem "uid" pp) ;;
        ret (bool_decide (v = py_str uid))
    | None => ret false
    end.

Definition ping : M unit :=
  _ensure_login ;;
  _sendrequest "Ping" (Some []) None ;;
  ret tt.

(** [if v: d[k] = f(v)]. *)
Definition set_if (v : pyval) (k : string) (x : pyval) (d : Dict.t pyval) : Dict.t pyval :=
  if truthy v then Dict.set k x d else d.

Definition create_user (name number desc1 desc2 login pin sip_user sip_password : pyval)
    : M (option childval) :=
  self <- get_self ;;
  let user := [("name", name); ("num", number)] in
  let user := set_if desc1 "hierarchy1" desc1 user in
  let user := set_if desc2 "hierarchy2" desc2 user in
  let user := set_if login "addId" login user in
  let user :=
    set_if pin "pin" (PStr (encrypt_pin pin (_modulus self) (_exponent self))) user in
  let user := set_if sip_user "sipAuthId" sip_user user in
  let user :=
    set_if sip_password "sipPw"
      (PStr (encrypt_pin sip_password (_modulus self) (_exponent self))) user in
  let children := [("user", Some user)] in
  seq <- _get_sequence ;;
  r <- _sendrequest "CreatePPUser" (Some [("seq", PInt seq)]) (Some children) ;;
  let '(message, attributes, children) := r in
  ret (Dict.get "user" children).

Definition delete_user (uid : pyval) : M unit :=
  _ensure_login ;;
  seq <- _get_sequence ;;
  _sendrequest "DeletePPUser" (Some [("uid", uid); ("seq", PStr (str_of_Z seq))]) None ;;
  ret tt.

Definition delete_device (ppid : pyval) : M unit :=
  _ensure_login ;;
  seq <- _get_sequence ;;
  _sendrequest "DeletePPDev"
    (Some [("ppn", PStr (py_str ppid)); ("seq", PStr (str_of_Z seq))]) None ;;
  ret tt.

Definition get_device_state (ppn : pyval) : M (option entity) :=
  _ensure_login ;;
  seq <- _get_sequence ;;
  r <- _sendrequest "GetPPState"
         (Some [("ppn", PStr (py_str ppn)); ("seq", PStr (str_of_Z seq))]) None ;;
  let '(message, attributes, children) := r in
  match Dict.get "pp" children with
  | Some pp =>
      v <- lift (child_getitem "ppn" pp) ;;
      if decide (v = py_str ppn) then
        a <- lift (as_attributes pp) ;;
        ret (Some (PPDev a))
      else ret None
  | None => ret None
  end.

(** ** The paginated listings [get_devices] and [get_users]

    Both generators have the same body up to the request name, the child tag,
    the cursor attribute and the wrapper class. *)

Record listing := Listing {
  request : string;
  tag : string;
  cursor : string;
  wrap : Dict.t string -> entity
}.

Definition devices : listing := Listing "GetPPDev" "pp" "ppn" PPDev.
Definition users : listing := Listing "GetPPUser" "user" "uid" PPUser.

Definition MAX_RECORDS : Z := 20.

(** A generator object: created and not yet run, suspended at the [yield]
    inside the [for] loop over [page] with [rest] still to come, or finished. *)
Inductive generator :=
| Created (start : pyval)
| InPage (rest page : list (Dict.t string))
| Finished.

(** One turn of the [while True] loop up to its first [yield] or [break]. *)
Definition request_page (L : listing) (start : pyval) : M (option entity * generator) :=
  seq <- _get_sequence ;;
  r <- _sendrequest (request L)
         (Some [("seq", PInt seq); (cursor L, start); ("maxRecords", PInt MAX_RECORDS)])
         None ;;
  let '(message, attributes, children) := r in
  match Dict.get (tag L) children with
  | Some v =>
      if child_truthy v then
        let page := match v with One m => [m] | Many l => l end in
        match page with
        | child :: rest => ret (Some (wrap L child), InPage rest page)
        | [] => ret (None, Finished)
        end
      else ret (None, Finished)
  | None => ret (None, Finished)
  end.

(** [next(generator)]: the next record, or [None] for [StopIteration]. *)
Definition next (L : listing) (g : generator) : M (option entity * generator) :=
  match g with
  | Created start => request_page L start
  | InPage (child :: rest) page => ret (Some (wrap L child), InPage rest page)
  | InPage [] page =>
      if decide (Z.of_nat (length page) = MAX_RECORDS) then
        match last page with
        | Some record =>
            id <- lift (getitem (cursor L) record) ;;
            n <- lift (int_of_str id) ;;
            request_page L (PInt (n + 1))
        | None => raise IndexError
        end
      else ret (None, Finished)
  | Finished => ret (None, Finished)
  end.

Definition get_devices (start_ppn : pyval) : generator := Created start_ppn.
Definition get_users (start_uid : pyval) : generator := Created start_uid.

(** [list(itertools.islice(generator, n))]: at most [n] calls of [next],
    stopping at [StopIteration]; the generator is returned as it is left. *)
Fixpoint drain (L : listing) (n : nat) (g : generator) : M (list entity * generator) :=
  match n with
  | O => ret ([], g)
  | S n =>
      r <- next L g ;;
      match r with
      | (Some record, g) =>
          r' <- drain L n g ;;
          ret (record :: r'.1, r'.2)
      | (None, g) => ret ([], g)
      end
  end.

(** ** Event slots

    Attribute lookup of an event name: the slot in the instance dictionary
    when there is one; otherwise [__getattr__] subscribes to the event at the
    server and [Events.__getattr__] creates the empty slot. *)
Definition __getattr__ (name : string) : M (list handler) :=
  self <- get_self ;;
  match __dict__ self !! name with
  | Some targets => ret targets
  | None =>
      if decide (name ∈ __events__) then
        omm_event <- lift (match split "_" name !! 1%nat with
                           | Some e => inr e
                           | None => inl IndexError
                           end) ;;
        subscribe_event (PStr omm_event) ;;
        modify (with_dict (insert name [])) ;;
        ret []
      else raise (Exception ("Event '" +:+ name +:+ "' is not declared"))
  end.

(** Calling a slot calls its targets in order. *)
Definition fire (targets : list handler) (args : envelope) : M unit :=
  modify (with_calls (fun l => l ++ ((fun h => (h, args)) <$> targets))).

(** ** The transport pump and the dispatcher *)

(** The body of the [while not self._terminate] loop of [_work]. *)
Definition _work_iter (self : OMMClient) : OMMClient :=
  let self :=
    match _send_q self with
    | item :: rest =>
        with_socket
          (fun s => Socket (status s) (written s ++ [item +:+ String NUL EmptyString])
                      (inbound s))
          (with_send_q (fun _ => rest) self)
    | [] => self
    end in
  match inbound (_ssl_socket self) with
  | data :: more =>
      let self := with_socket (fun s => Socket (status s) (written s) more) self in
      if decide (data = EmptyString) then self
      else with_recv_q (fun q => q ++ [data]) self
  | [] => self
  end.

(** The body of the [while not self._terminate] loop of [_dispatch]. *)
Definition _dispatch_iter : M unit := fun self =>
  match _recv_q self with
  | item :: rest =>
      let self := with_recv_q (fun _ => rest) self in
      match parse_message parseString item with
      | inr (message, attributes, children) =>
          if decide (message = "EventDECTSubscriptionMode") then
            (targets <- __getattr__ "on_DECTSubscriptionMode" ;;
             fire targets (message, attributes, children)) self
          else
            let message :=
              match Dict.get "seq" attributes with
              | Some seq => message +:+ seq
              | None => message
              end in
            match _events self !! message with
            | Some w =>
                Returned tt (with_events (insert message (Waiter true (Some item))) self)
            | None => Returned tt self
            end
      | inl e => Raised e self
      end
  | [] => Returned tt self
  end.


(** ** The three threads in lockstep

    The loops of [_work] and [_dispatch] turn while both threads have been
    started, [_terminate] is not set, and the socket is connected ([send] and
    [recv] raise on a socket that is not, which ends the pump). *)
Definition turning (self : OMMClient) : bool :=
  _worker self && _dispatcher self && negb (_terminate self)
  && connected (_ssl_socket self).

(** The server answers the frame last written to the socket with the chunk
    [server frame]. One exchange lets the pump write the pending request, the
    server answer, the pump read the answer, the dispatcher route it, and the
    suspended caller continue; where the loops do not turn, the caller stays
    in [Event.wait()]. *)
Definition serve (server : string -> string) (self : OMMClient) : OMMClient :=
  match last (written (_ssl_socket self)) with
  | Some frame =>
      with_socket
        (fun s => Socket (status s) (written s) (inbound s ++ [server frame])) self
  | None => self
  end.

Definition exchange {A} (server : string -> string) (o : outcome A) : option (outcome A) :=
  if turning (state_of o) then
    let self := _work_iter (state_of o) in
    let self := serve server self in
    let self := _work_iter self in
    match _dispatch_iter self with
    | Returned _ self => resume o self
    | _ => None
    end
  else None.

(** Run a call to its end, with at most [fuel] exchanges; [None] when the
    caller is still suspended. *)
Fixpoint run {A} (server : string -> string) (fuel : nat) (o : outcome A)
    : option (outcome A) :=
  match o with
  | Waiting _ _ _ =>
      match fuel with
      | O => None
      | S fuel =>
          match exchange server o with
          | Some o => run server fuel o
          | None => None
          end
      end
  | _ => Some o
  end.

End Session.

(** * Vocabulary of the statements *)

(** [str] applied to every value of an attribute dictionary. *)
Definition render (d : Dict.t pyval) : Dict.t string := prod_map id py_str <$> d.

(** The child element [construct_message] creates for one item of
    [children]. *)
Definition render_child (kv : string * option (Dict.t pyval)) : Node :=
  Element kv.1 (render (default [] kv.2)) [].

(** String-valued attribute maps and children maps as the arguments of
    [construct_message]. *)
Definition str_attrs (d : Dict.t string) : Dict.t pyval := prod_map id PStr <$> d.

Definition str_children (c : Dict.t (Dict.t string)) : Dict.t (option (Dict.t pyval)) :=
  prod_map id (fun a => Some (str_attrs a)) <$> c.

(** The XML library reads back the document it has serialised. *)
Definition reads_back (toxml : Node -> string) (parseString : string -> exn + Node)
    (doc : Node) : Prop :=
  parseString (rstrip NUL (toxml doc)) = inr doc.


(** What one more occurrence of a tag turns the stored value into. *)
Definition folded (stored : option childval) (new_child : Dict.t string) : childval :=
  match stored with
  | None => One new_child
  | Some (One m) => Many [m; new_child]
  | Some (Many l) => Many (l ++ [new_child])
  end.

(** A children map with [n] distinct tags [r0], [r1], ... *)
Definition many_tags (n : Z) : Dict.t (Dict.t string) :=
  (fun i => ("r" +:+ str_of_Z i, [("id", str_of_Z i)])) <$> seqZ 0 n.

(** The key under which the response to a request is awaited. *)
Definition correlation_key (message : string) (messagedata : option (Dict.t pyval))
    : string :=
  match messagedata with
  | Some d =>
      match Dict.get "seq" d with
      | Some seq => (message +:+ "Resp") +:+ py_str seq
      | None => message +:+ "Resp"
      end
  | None => message +:+ "Resp"
  end.

(** The key under which the dispatcher looks up the waiter of an envelope. *)
Definition dispatch_key (message : string) (attributes : Dict.t string) : string :=
  match Dict.get "seq" attributes with
  | Some seq => message +:+ seq
  | None => message
  end.

(** An argument that is not a positive [int]. *)
Definition not_positive_int (v : pyval) : Prop :=
  match v with
  | PInt z => z ≤ 0
  | _ => True
  end.

(** The send queue as a call leaves it when it returns, raises or suspends. *)
Definition outbound {A} (o : outcome A) : list string := _send_q (state_of o).

(** The [user] child of a [CreatePPUser] request. *)
Definition new_user (encrypt_pin : pyval -> option string -> option string -> string)
    (self : OMMClient)
    (name number desc1 desc2 login pin sip_user sip_password : pyval) : Dict.t pyval :=
  set_if sip_password "sipPw"
    (PStr (encrypt_pin sip_password (_modulus self) (_exponent self)))
    (set_if sip_user "sipAuthId" sip_user
       (set_if pin "pin" (PStr (encrypt_pin pin (_modulus self) (_exponent self)))
          (set_if login "addId" login
             (set_if desc2 "hierarchy2" desc2
                (set_if desc1 "hierarchy1" desc1 [("name", name); ("num", number)]))))).


(** ** The listings against a paging server *)

(** Nothing queued, nothing pending on the socket, no call waiting. *)
Definition quiet (self : OMMClient) : Prop :=
  _send_q self = []
  ∧ _recv_q self = []
  ∧ inbound (_ssl_socket self) = []
  ∧ _events self = ∅.

(** A session at rest: connected, its threads running, and quiet. *)
Definition idle (self : OMMClient) : Prop :=
  turning self = true ∧ quiet self.

(** [finishes server o n r]: the call [o] ends as [r] after [n] exchanges
    with the server. *)
Inductive finishes {A} (toxml : Node -> string) (parseString : string -> exn + Node)
    (server : string -> string) : outcome A -> nat -> outcome A -> Prop :=
| finishes_returned a self :
    finishes toxml parseString server (Returned a self) 0 (Returned a self)
| finishes_raised e self :
    finishes toxml parseString server (Raised e self) 0 (Raised e self)
| finishes_exchange o o' n r :
    exchange toxml parseString server o = Some o' →
    finishes toxml parseString server o' n r →
    finishes toxml parseString server o (S n) r.

(** The backing record set of the server: identifiers with the attribute map
    of each record. It is well kept when every map is a dictionary that holds
    its identifier under the cursor attribute and the identifiers increase. *)
Definition well_kept (L : listing) (records : list (Z * Dict.t string)) : Prop :=
  Forall (fun r => Dict.wf r.2 ∧ Dict.get (cursor L) r.2 = Some (str_of_Z r.1)) records
  ∧ StronglySorted Z.lt records.*1.

(** The page the server returns for the cursor [c]: the first [MAX_RECORDS]
    records from identifier [c] on. *)
Definition page_for (records : list (Z * Dict.t string)) (c : Z)
    : list (Z * Dict.t string) :=
  take (Z.to_nat MAX_RECORDS) (filter (fun r => c ≤ r.1) records).

(** The frame of a page request as the pump writes it. *)
Definition request_frame (toxml : Node -> string) (L : listing) (seq c : Z) : string :=
  construct_message toxml (request L)
    (Some [("seq", PInt seq); (cursor L, PInt c); ("maxRecords", PInt MAX_RECORDS)])
    None
  +:+ String NUL EmptyString.

(** The document of a page response. *)
Definition response_doc (L : listing) (seq : Z) (page : list (Z * Dict.t string)) : Node :=
  Element (request L +:+ "Resp") [("seq", str_of_Z seq)]
    ((fun r => Element (tag L) r.2 []) <$> page).

(** A server that answers every page request with the page at its cursor,
    under the sequence number of the request. *)
Definition paging_server (toxml : Node -> string) (parseString : string -> exn + Node)
    (L : listing) (records : list (Z * Dict.t string)) (server : string -> string)
    : Prop :=
  ∀ seq c,
    server (request_frame toxml L seq c) ≠ EmptyString
    ∧ parseString (rstrip NUL (server (request_frame toxml L seq c)))
      = inr (response_doc L seq (page_for records c)).

(** The frames written to the socket by a call that ends as [r] on a session
    that started as [self]. *)
Definition frames_written {A} (self : OMMClient) (r : outcome A) : nat :=
  (length (written (_ssl_socket (state_of r))) - length (written (_ssl_socket self)))%nat.

(** The children a page of records decodes to. *)
Definition page_children (tag : string) (page : list (Dict.t string)) : Dict.t childval :=
  match page with
  | [] => []
  | [a] => [(tag, One a)]
  | _ => [(tag, Many page)]
  end.

(** What [request_page] hands to the generator for a page. *)
Definition page_result (L : listing) (page : list (Dict.t string))
    : option entity * generator :=
  match page with
  | [] => (None, Finished)
  | a :: rest => (Some (wrap L a), InPage rest page)
  end.

(** The session after one page request from cursor [c]. *)
Definition after_request (toxml : Node -> string) (L : listing) (c : Z)
    (self : OMMClient) : OMMClient :=
  with_socket
    (fun s => Socket (status s)
                (written s ++ [request_frame toxml L (_sequence self) c]) (inbound s))
    (with_sequence (_sequence self + 1) self).

(** [ceil (k / p)]. *)
Definition ceil_div (k p : nat) : nat := ((k + p - 1) / p)%nat.

(** A backing set of [n] device records with the identifiers [1 .. n]. *)
Definition device_records (n : Z) : list (Z * Dict.t string) :=
  (fun i => (i, [("ppn", str_of_Z i)])) <$> seqZ 1 n.

(** ** [str.upper] on strings of ASCII characters

    On the strings that hold ASCII characters only, [str.upper] maps the
    letters [a] to [z] to [A] to [Z] and leaves the rest; [ascii_upper] is
    used where a statement is run on such a string. *)
Definition upper_ascii (a : ascii) : ascii :=
  let n := N_of_ascii a in
  if ((97 <=? n) && (n <=? 122))%N then ascii_of_N (n - 32) else a.

Fixpoint ascii_upper (s : string) : string :=
  match s with
  | EmptyString => EmptyString
  | String a r => String (upper_ascii a) (ascii_upper r)
  end.

(** ** A stand-in for the XML library

    The statements about wire strings hold for any [toxml] and [parseString]
    that read back what they wrote. [Loopback] is one such pair, used to run
    the statements on concrete sessions: a document is written as the binary
    numeral of its code in an enumeration of all documents. *)

Module Loopback.

Definition tree : Type := gen_tree (string * Dict.t string + string).

Fixpoint node_to_tree (n : Node) : tree :=
  match n with
  | Element t a cs => GenNode 0 (GenLeaf (inl (t, a)) :: map node_to_tree cs)
  | Text d => GenLeaf (inr d)
  end.

Fixpoint tree_to_node (t : tree) : Node :=
  match t with
  | GenNode _ (GenLeaf (inl (t, a)) :: cs) => Element t a (map tree_to_node cs)
  | GenLeaf (inr d) => Text d
  | _ => Text EmptyString
  end.

(** The binary numeral of [p], least significant digit first, closed by [>]. *)
Fixpoint bits (p : positive) : string :=
  match p with
  | xH => ">"
  | xO q => String "0" (bits q)
  | xI q => String "1" (bits q)
  end.

Fixpoint unbits (s : string) : option positive :=
  match s with
  | EmptyString => None
  | String c r =>
      if decide (c = ">"%char) then
        match r with EmptyString => Some xH | _ => None end
      else if decide (c = "0"%char) then xO <$> unbits r
      else if decide (c = "1"%char) then xI <$> unbits r
      else None
  end.

Definition toxml (d : Node) : string := bits (encode (node_to_tree d)).

Definition parseString (w : string) : exn + Node :=
  match unbits w ≫= decode with
  | Some t => inr (tree_to_node t)
  | None => inl ExpatError
  end.

(** A paging server over [records]: it reads the sequence number and the
    cursor of the request and writes the page at that cursor. *)
Definition server (L : listing) (records : list (Z * Dict.t string)) (frame : string)
    : string :=
  match parseString (rstrip NUL frame) with
  | inr (Element _ a _) =>
      match Dict.get "seq" a, Dict.get (cursor L) a with
      | Some s, Some c =>
          match int_of_str s, int_of_str c with
          | inr seq, inr c => toxml (response_doc L seq (page_for records c))
          | _, _ => toxml (Text "bad request")
          end
      | _, _ => toxml (Text "bad request")
      end
  | _ => toxml (Text "bad request")
  end.

End Loopback.

(** ** Sessions and frames the statements are run on *)

(** A session on which a [Ping] is outstanding. *)
Definition pinging : OMMClient :=
  with_events (insert "PingResp" (Waiter false None)) __init__.

(** An unsolicited health-state frame, and a session whose handler 7 is
    registered on [on_HealthState]. *)
Definition health_frame : string :=
  Loopback.toxml (Element "EventHealthState" [("state", "ok")] [])
  +:+ String NUL EmptyString.

Definition subscribed : OMMClient :=
  with_recv_q (fun _ => [health_frame])
    (with_dict (insert "on_HealthState" [7%nat]) __init__).

(** A response whose caller is gone. *)
Definition late_frame : string :=
  Loopback.toxml (Element "GetPPDevResp" [("seq", "5")] [])
  +:+ String NUL EmptyString.

(** Three records under one tag. *)
Definition three_pp : list Node :=
  [Element "pp" [("ppn", "1")] []; Element "pp" [("ppn", "2")] [];
   Element "pp" [("ppn", "3")] []].

(** * Further vocabulary *)

(** The attribute maps of the element children of a frame that carry the
    tag [t], in document order. *)
Definition occurrences (t : string) (childs : list Node) : list (Dict.t string) :=
  omap (fun n =>
          match n with
          | Element t' a _ => if decide (t' = t) then Some (read_attributes a) else None
          | Text _ => None
          end) childs.

(** What the maps of the children under one tag decode to. *)
Definition fold_value (l : list (Dict.t string)) : option childval :=
  match l with
  | [] => None
  | [m] => Some (One m)
  | _ => Some (Many l)
  end.

Definition is_element (n : Node) : Prop :=
  match n with
  | Element _ _ _ => True
  | Text _ => False
  end.

(** [n] NUL characters. *)
Fixpoint nuls (n : nat) : string :=
  match n with
  | O => EmptyString
  | S n => String NUL (nuls n)
  end.

(** [n] calls of [_get_sequence] in a row, with the numbers they return. *)
Fixpoint take_sequences (n : nat) : M (list Z) :=
  match n with
  | O => ret []
  | S n =>
      bind _get_sequence (fun s => bind (take_sequences n) (fun l => ret (s :: l)))
  end.


(** A frame as the pump writes it. *)
Definition framed (item : string) : string := item +:+ String NUL EmptyString.

(** The attributes of the [Open] request. *)
Definition credentials (user password ommsync : pyval) : Dict.t pyval :=
  [("protocolVersion", PStr "45"); ("username", user); ("password", password);
   if decide (ommsync = PBool true) then ("UserDeviceSyncClient", PStr "true")
   else ("OMPClient", PStr "1")].

(** The children of the [SetPP] request of [attach_user_device]. *)
Definition attachment (uid ppn : pyval) : Dict.t (option (Dict.t pyval)) :=
  [("pp", Some [("uid", uid); ("relType", PStr "Dynamic"); ("ppn", ppn)]);
   ("user", Some [("uid", uid); ("relType", PStr "Dynamic"); ("ppn", ppn)])].

(** A session on which [login] has not been called: the socket wrapped and
    not connected, no thread started, no termination asked for, nothing
    queued or awaited. *)
Definition fresh (self : OMMClient) : Prop :=
  status (_ssl_socket self) = Unconnected
  ∧ _worker self = false ∧ _dispatcher self = false
  ∧ _terminate self = false
  ∧ quiet self.

(** The session once a request frame has been written and answered. *)
Definition answered (frame : string) (self : OMMClient) : OMMClient :=
  with_socket (fun s => Socket (status s) (written s ++ [frame]) (inbound s)) self.

(** ** types/LastPPAction.py, continued *)

(** [c in s] for a character [c]. *)
Fixpoint contains (c : ascii) (s : string) : bool :=
  match s with
  | EmptyString => false
  | String a r => bool_decide (a = c) || contains c r
  end.

(** [LastPPAction.get_attributes]: the items of the instance dictionary
    whose name holds an underscore. *)
Definition get_attributes (self : LastPPAction.t) : gmap string LastPPAction.value :=
  filter (fun kv => contains "_" kv.1 = true) self.

(** ** A server for the stand-in XML library

    It answers a request by the document listed under the name of the
    request, and is silent otherwise. *)
Definition answers (table : Dict.t Node) (frame : string) : string :=
  match Loopback.parseString (rstrip NUL frame) with
  | inr (Element name _ _) =>
      match Dict.get name table with
      | Some doc => Loopback.toxml doc
      | None => EmptyString
      end
  | _ => EmptyString
  end.

(** Responses the statements are run on. *)
Definition device_doc : Node :=
  Element "GetPPDevResp" [("seq", "0")] [Element "pp" [("ppn", "1"); ("uid", "2")] []].

Definition attached_doc : Node :=
  Element "SetPPResp" [("seq", "0")]
    [Element "pp" [("ppn", "3"); ("uid", "2")] [];
     Element "user" [("uid", "2"); ("ppn", "3")] []].

Definition last_action_doc : Node :=
  Element "GetLastPPDevActionResp" [("seq", "0")]
    [Element "pp" [("ppn", "9"); ("trType", "None")] []].

Definition pin_doc : Node :=
  Element "SetPPUserResp" [("seq", "0")] [Element "user" [("uid", "2")] []].

Definition open_doc : Node :=
  Element "OpenResp" [("protocolVersion", "45")]
    [Element "publicKey" [("modulus", "C0FFEE"); ("exponent", "10001")] []].

Definition refused_doc : Node :=
  Element "OpenResp" [("errCode", "EAuth")] [].

Definition versions_doc : Node :=
  Element "GetVersionsResp" [("GetPPDev", "45"); ("Ping", "1")] [].

(** A subscription-mode event on the receive queue of a fresh session. *)
Definition mode_frame : string :=
  framed (Loopback.toxml (Element "EventDECTSubscriptionMode" [("mode", "Off")] [])).

Definition notified : OMMClient := with_recv_q (fun _ => [mode_frame]) __init__.

(** The response to a [Ping]. *)
Definition pong_frame : string := framed (Loopback.toxml (Element "PingResp" [] [])).

(** A session that is logged in: connected, its threads running, the key
    of the server stored. *)
Definition running : OMMClient :=
  with_logged_in true
    (with_key (Some "C0FFEE") (Some "10001")
       (with_threads true true
          (with_socket (fun s => Socket Connected (written s) (inbound s)) __init__))).
(** * Properties of the Python primitives *)

Module PyFacts.

(** [int(str(z)) == z]. *)
Lemma int_of_str_of_Z (z : Z) : int_of_str (str_of_Z z) = inr z.
Proof.
  unfold int_of_str, str_of_Z. rewrite NilZero.isi.
  - by rewrite DecimalZ.of_to.
  - destruct z; simpl; try done.
    intros [= H]. by apply DecimalPos.Unsigned.to_uint_nonnil in H.
  - destruct z; simpl; try done.
    intros [= H]. by apply DecimalPos.Unsigned.to_uint_nonnil in H.
Qed.

Lemma str_of_Z_inj : Inj (=) (=) str_of_Z.
Proof.
  intros x y H. apply (f_equal int_of_str) in H.
  rewrite !int_of_str_of_Z in H. by injection H.
Qed.

Lemma rstrip_snoc (c a : ascii) (s : string) :
  a ≠ c → rstrip c (s +:+ String a EmptyString) = s +:+ String a EmptyString.
Proof.
  intros Hne. induction s as [|b s IH]; simpl.
  - by rewrite decide_False.
  - rewrite IH. by destruct s.
Qed.

End PyFacts.

(** * Properties of dictionaries *)

Module DictFacts.

Lemma get_set_eq {V} (k : string) (v : V) (d : Dict.t V) :
  Dict.get k (Dict.set k v d) = Some v.
Proof.
  induction d as [|[k' v'] d IH]; simpl.
  - by rewrite decide_True.
  - destruct (decide (k = k')) as [->|Hne]; simpl.
    + by rewrite decide_True.
    + by rewrite decide_False.
Qed.

Lemma get_set_ne {V} (k k' : string) (v : V) (d : Dict.t V) :
  k ≠ k' → Dict.get k' (Dict.set k v d) = Dict.get k' d.
Proof.
  intros Hne. induction d as [|[k0 v0] d IH]; simpl.
  - by rewrite decide_False.
  - destruct (decide (k = k0)) as [->|Hne0]; simpl.
    + by rewrite !decide_False.
    + destruct (decide (k' = k0)); done.
Qed.

Lemma get_set {V} (k k' : string) (v : V) (d : Dict.t V) :
  Dict.get k' (Dict.set k v d) = if decide (k' = k) then Some v else Dict.get k' d.
Proof.
  destruct (decide (k' = k)) as [->|Hne].
  - apply get_set_eq.
  - by apply get_set_ne.
Qed.

Lemma get_None {V} (k : string) (d : Dict.t V) :
  Dict.get k d = None ↔ k ∉ Dict.keys d.
Proof.
  unfold Dict.keys. induction d as [|[k' v'] d IH]; simpl.
  - split; [intros _; apply not_elem_of_nil | done].
  - rewrite not_elem_of_cons. destruct (decide (k = k')) as [->|Hne].
    + split; [done | intros [? _]; done].
    + rewrite IH. split; [by intros ? | by intros [_ ?]].
Qed.

Lemma get_Some_elem {V} (k : string) (v : V) (d : Dict.t V) :
  Dict.get k d = Some v → (k, v) ∈ d.
Proof.
  induction d as [|[k' v'] d IH]; simpl; [done|].
  destruct (decide (k = k')) as [->|Hne].
  - intros [= ->]. apply list_elem_of_here.
  - intros H. apply list_elem_of_further. auto.
Qed.

Lemma set_fresh {V} (k : string) (v : V) (d : Dict.t V) :
  Dict.get k d = None → Dict.set k v d = d ++ [(k, v)].
Proof.
  induction d as [|[k' v'] d IH]; simpl; [done|].
  destruct (decide (k = k')); [done|]. intros H. by rewrite IH.
Qed.

Lemma length_set_le {V} (k : string) (v : V) (d : Dict.t V) :
  (length (Dict.set k v d) ≤ S (length d))%nat.
Proof.
  induction d as [|[k' v'] d IH]; simpl; [lia|].
  destruct (decide (k = k')); simpl; lia.
Qed.

Lemma fold_set_fresh {V} (l acc : Dict.t V) :
  NoDup (Dict.keys (acc ++ l)) →
  fold_left (fun a kv => Dict.set kv.1 kv.2 a) l acc = acc ++ l.
Proof.
  revert acc. induction l as [|[k v] l IH]; intros acc Hnd; simpl.
  - by rewrite app_nil_r.
  - rewrite set_fresh.
    + rewrite IH; rewrite <- app_assoc; done.
    + apply get_None. unfold Dict.keys in *. rewrite fmap_app in Hnd.
      apply NoDup_app in Hnd as (_ & Hdisj & _).
      intros Hin. apply (Hdisj k Hin). simpl. apply list_elem_of_here.
Qed.

(** Assigning the items of a dictionary into an empty one rebuilds it. *)
Lemma of_items_wf {V} (d : Dict.t V) : Dict.wf d → Dict.of_items d = d.
Proof. intros H. unfold Dict.of_items. by rewrite fold_set_fresh. Qed.

Lemma wf_fmap {V W} (f : V → W) (d : Dict.t V) :
  Dict.wf d → Dict.wf (prod_map id f <$> d).
Proof.
  unfold Dict.wf, Dict.keys. intros H.
  rewrite <- list_fmap_compose.
  replace (fmap (fst ∘ prod_map id f) d) with (d.*1); [done|].
  apply list_fmap_ext. by intros ? [??].
Qed.

Lemma wf_set {V} (k : string) (v : V) (d : Dict.t V) :
  Dict.wf d → Dict.wf (Dict.set k v d).
Proof.
  unfold Dict.wf, Dict.keys. induction d as [|[k' v'] d IH]; simpl; intros Hnd.
  - apply NoDup_singleton.
  - apply NoDup_cons in Hnd as [Hnotin Hnd].
    destruct (decide (k = k')) as [->|Hne]; simpl.
    + by apply NoDup_cons.
    + apply NoDup_cons. split; [|by apply IH].
      intros Hin. apply Hnotin. clear IH Hnd Hnotin.
      induction d as [|[k0 v0] d IH]; simpl in *.
      * apply list_elem_of_singleton in Hin. by subst.
      * destruct (decide (k = k0)) as [->|Hne0]; simpl in *; [done|].
        apply elem_of_cons in Hin as [->|Hin]; [apply list_elem_of_here|].
        apply list_elem_of_further. by apply IH.
Qed.

Lemma get_fmap {V W} (f : V → W) (k : string) (d : Dict.t V) :
  Dict.get k (prod_map id f <$> d) = f <$> Dict.get k d.
Proof.
  induction d as [|[k' v'] d IH]; simpl; [done|].
  by destruct (decide (k = k')).
Qed.

End DictFacts.

(** * Properties of the codec *)

Module CodecFacts.
Import DictFacts.

Lemma fold_setAttribute (l : Dict.t pyval) name a c :
  fold_left (fun root kv => setAttribute kv.1 (py_str kv.2) root) l (Element name a c)
  = Element name (fold_left (fun acc kv => Dict.set kv.1 kv.2 acc) (render l) a) c.
Proof.
  revert a. induction l as [|[k v] l IH]; intros a; simpl; [done|].
  by rewrite IH.
Qed.

Lemma fold_appendChild (l : Dict.t (option (Dict.t pyval))) name a c :
  Forall (fun kv => Dict.wf (default [] kv.2)) l →
  fold_left
    (fun root kv =>
       let new_child :=
         match kv.2 with
         | Some val =>
             fold_left (fun c av => setAttribute av.1 (py_str av.2) c)
               val (Element kv.1 [] [])
         | None => Element kv.1 [] []
         end in
       appendChild new_child root) l (Element name a c)
  = Element name a (c ++ (render_child <$> l)).
Proof.
  revert c. induction l as [|[k v] l IH]; intros c Hwf; simpl.
  - by rewrite app_nil_r.
  - apply Forall_cons in Hwf as [Hv Hl]. simpl in Hv.
    rewrite IH by done. rewrite <- app_assoc. simpl.
    do 3 f_equal. unfold render_child; simpl.
    destruct v as [val|]; simpl; [|done].
    rewrite fold_setAttribute. f_equal.
    rewrite (fold_set_fresh (render val) []); [done|].
    simpl. by apply wf_fmap.
Qed.

(** The document built from well-formed dictionaries: one attribute per
    key, one child element per tag, in dictionary order. *)
Lemma construct_dom_wf name attributes children :
  Dict.wf attributes →
  Forall (fun kv => Dict.wf (default [] kv.2)) children →
  construct_dom name (Some attributes) (Some children)
  = Element name (render attributes) (render_child <$> children).
Proof.
  intros Ha Hc. unfold construct_dom. simpl.
  rewrite fold_setAttribute.
  rewrite (fold_set_fresh (render attributes) []) by (by apply wf_fmap).
  simpl. by rewrite fold_appendChild.
Qed.

(** ** The folding of repeated tags *)

Lemma add_child_get (childname t : string) new_child children :
  Dict.get t (add_child childname new_child children)
  = if decide (t = childname) then
      Some match Dict.get childname children with
           | None => One new_child
           | Some (One m) => Many [m; new_child]
           | Some (Many l) => Many (l ++ [new_child])
           end
    else Dict.get t children.
Proof.
  unfold add_child.
  destruct (Dict.get childname children) as [[m|l]|]; rewrite get_set; done.
Qed.

Lemma add_child_length childname new_child children :
  (length (add_child childname new_child children) ≤ S (length children))%nat.
Proof.
  unfold add_child.
  destruct (Dict.get childname children); apply length_set_le.
Qed.

Lemma add_child_fresh childname new_child children :
  Dict.get childname children = None →
  add_child childname new_child children = children ++ [(childname, One new_child)].
Proof. intros H. unfold add_child. rewrite H. by apply set_fresh. Qed.

(** The loop on a list of siblings split in two. *)
Lemma parse_children_app l1 l2 n children :
  parse_children n (l1 ++ l2) children
  = match parse_children n l1 children with
    | inr ch => parse_children (n + Z.of_nat (length l1)) l2 ch
    | inl e => inl e
    end.
Proof.
  revert n children. induction l1 as [|c l1 IH]; intros n children; simpl.
  - by rewrite Z.add_0_r.
  - destruct (n <? MAX_CHILDREN) eqn:Hn.
    + destruct c as [t a gc|d]; [|done].
      rewrite IH. replace (n + 1 + Z.of_nat (length l1)) with
        (n + Z.pos (Pos.of_succ_nat (length l1))) by lia. done.
    + destruct l2 as [|c2 l2]; simpl; [done|].
      apply Z.ltb_ge in Hn.
      destruct (_ <? MAX_CHILDREN) eqn:Hn2; [|done].
      apply Z.ltb_lt in Hn2. lia.
Qed.

(** The cap: at most [MAX_CHILDREN - n] children are added. *)
Lemma parse_children_length l n children res :
  parse_children n l children = inr res →
  (Z.of_nat (length res) ≤ Z.of_nat (length children) + Z.max 0 (MAX_CHILDREN - n)).
Proof.
  revert n children. induction l as [|c l IH]; intros n children; simpl.
  - intros [= <-]. lia.
  - destruct (n <? MAX_CHILDREN) eqn:Hn.
    + destruct c as [t a gc|d]; [|done]. intros H. apply IH in H.
      apply Z.ltb_lt in Hn.
      pose proof (add_child_length t (read_attributes a) children). lia.
    + intros [= <-]. lia.
Qed.

(** Below the cap, children with pairwise distinct fresh tags decode to one
    map each, in document order. *)
Lemma parse_children_distinct (l : Dict.t (Dict.t string)) n children :
  n + Z.of_nat (length l) ≤ MAX_CHILDREN →
  NoDup (Dict.keys children ++ Dict.keys l) →
  parse_children n ((fun kv => Element kv.1 kv.2 []) <$> l) children
  = inr (children ++ (prod_map id (fun a => One (read_attributes a)) <$> l)).
Proof.
  revert n children. induction l as [|[t a] l IH]; intros n children Hn Hnd; simpl.
  - by rewrite app_nil_r.
  - simpl in Hn. replace (n <? MAX_CHILDREN) with true by (symmetry; apply Z.ltb_lt; lia).
    rewrite add_child_fresh.
    + rewrite IH.
      * by rewrite <- app_assoc.
      * lia.
      * unfold Dict.keys in *. rewrite fmap_app. simpl.
        rewrite <- app_assoc. done.
    + apply get_None. apply NoDup_app in Hnd as (_ & Hdisj & _).
      intros Hin. apply (Hdisj t Hin). simpl. apply list_elem_of_here.
Qed.




End CodecFacts.

(** * The codec *)

Section CodecTheorems.

Import CodecFacts DictFacts.


(** The values of a string-valued map are rendered unchanged. *)
Lemma render_str_attrs (d : Dict.t string) : render (str_attrs d) = d.
Proof.
  unfold render, str_attrs. rewrite <- list_fmap_compose.
  rewrite <- (list_fmap_id d) at 2. apply list_fmap_ext. by intros ? [??].
Qed.

Lemma render_child_str_children (c : Dict.t (Dict.t string)) :
  render_child <$> str_children c = (fun kv => Element kv.1 kv.2 []) <$> c.
Proof.
  unfold str_children. rewrite <- list_fmap_compose.
  apply list_fmap_ext. intros ? [k a]. unfold render_child. simpl.
  by rewrite render_str_attrs.
Qed.

Lemma str_children_wf (c : Dict.t (Dict.t string)) :
  Forall (fun kv => Dict.wf kv.2) c →
  Forall (fun kv => Dict.wf (default [] kv.2)) (str_children c).
Proof.
  intros H. unfold str_children. apply Forall_fmap.
  eapply Forall_impl; [exact H|]. intros [k a] Ha. simpl in *.
  by apply wf_fmap.
Qed.

(** The document element of a message with string-valued maps. *)
Lemma construct_dom_strings name attributes children :
  Dict.wf attributes →
  Forall (fun kv => Dict.wf kv.2) children →
  construct_dom name (Some (str_attrs attributes)) (Some (str_children children))
  = Element name attributes ((fun kv => Element kv.1 kv.2 []) <$> children).
Proof.
  intros Ha Hc. rewrite construct_dom_wf.
  - by rewrite render_str_attrs, render_child_str_children.
  - by apply wf_fmap.
  - by apply str_children_wf.
Qed.

(** Decoding the document element of a message with at most
    [MAX_CHILDREN] children. *)
Lemma parse_construct_dom name attributes children :
  Dict.wf attributes →
  Dict.wf children →
  Forall (fun kv => Dict.wf kv.2) children →
  Z.of_nat (length children) ≤ MAX_CHILDREN →
  parse_dom (construct_dom name (Some (str_attrs attributes))
               (Some (str_children children)))
  = inr (name, attributes, prod_map id One <$> children).
Proof.
  intros Ha Hk Hc Hlen. rewrite construct_dom_strings by done.
  unfold parse_dom. rewrite parse_children_distinct by (done || lia).
  unfold read_attributes. rewrite of_items_wf by done. simpl.
  do 2 f_equal. apply Forall_fmap_ext_1.
  eapply Forall_impl; [exact Hc|]. intros [k a] Hwf. simpl in *.
  unfold prod_map. simpl. by rewrite of_items_wf.
Qed.

Variable toxml : Node -> string.
Variable parseString : string -> exn + Node.

(** C4, amended. For string-valued attribute maps and a children map of at
    most [MAX_CHILDREN] tags, decoding the encoding reproduces the name and
    the attributes exactly and every child as one map under its tag,
    whenever the XML library reads back the document it serialised. *)
Theorem parse_construct_roundtrip name (attributes : Dict.t string)
    (children : Dict.t (Dict.t string)) :
  Dict.wf attributes →
  Dict.wf children →
  Forall (fun kv => Dict.wf kv.2) children →
  Z.of_nat (length children) ≤ MAX_CHILDREN →
  reads_back toxml parseString
    (construct_dom name (Some (str_attrs attributes)) (Some (str_children children))) →
  parse_message parseString
    (construct_message toxml name (Some (str_attrs attributes))
       (Some (str_children children)))
  = inr (name, attributes, prod_map id One <$> children).
Proof.
  intros Ha Hk Hc Hlen Hxml. unfold parse_message, construct_message.
  rewrite Hxml. by apply parse_construct_dom.
Qed.

End CodecTheorems.

Lemma many_tags_wf n : Dict.wf (many_tags n).
Proof.
  unfold Dict.wf, Dict.keys, many_tags. rewrite <- list_fmap_compose.
  apply NoDup_fmap_2; [|apply NoDup_seqZ].
  intros x y H. simpl in H. injection H as H.
  by apply PyFacts.str_of_Z_inj.
Qed.

Lemma many_tags_children_wf n : Forall (fun kv => Dict.wf kv.2) (many_tags n).
Proof.
  unfold many_tags. apply Forall_fmap, Forall_forall. intros i _. simpl.
  unfold Dict.wf, Dict.keys. simpl. apply NoDup_singleton.
Qed.

(** C4, as stated, fails: a children map of 5001 tags is a value of the
    argument type, the XML library reads its document back, and the decoded
    envelope has lost the child beyond the cap. *)
Lemma roundtrip_fails_above_cap :
  ¬ (∀ (toxml : Node -> string) (parseString : string -> exn + Node)
       name (attributes : Dict.t string) (children : Dict.t (Dict.t string)),
        name ≠ EmptyString →
        Dict.wf attributes →
        Dict.wf children →
        Forall (fun kv => Dict.wf kv.2) children →
        reads_back toxml parseString
          (construct_dom name (Some (str_attrs attributes))
             (Some (str_children children))) →
        parse_message parseString
          (construct_message toxml name (Some (str_attrs attributes))
             (Some (str_children children)))
        = inr (name, attributes, prod_map id One <$> children)).
Proof.
  intros H.
  assert (length (many_tags 5001) = Z.to_nat 5001) as Hlen
    by (unfold many_tags; by rewrite length_fmap, length_seqZ).
  pose proof (many_tags_wf 5001) as Hwf.
  pose proof (many_tags_children_wf 5001) as Hcwf.
  revert Hlen Hwf Hcwf. generalize (many_tags 5001). intros big Hlen Hwf Hcwf.
  pose (doc := construct_dom "Limits" (Some (str_attrs [])) (Some (str_children big))).
  specialize (H (fun _ => "Limits") (fun _ => inr doc) "Limits" [] big).
  unfold parse_message, reads_back in H. fold doc in H.
  specialize (H ltac:(done) ltac:(apply NoDup_nil_2) Hwf Hcwf eq_refl).
  unfold doc in H.
  rewrite CodecFacts.construct_dom_wf in H.
  - unfold parse_dom in H.
    destruct (parse_children 0 _ []) as [e|res] eqn:E; [done|].
    apply CodecFacts.parse_children_length in E.
    assert (res = prod_map id One <$> big) as -> by congruence.
    rewrite length_fmap, Hlen in E.
    unfold MAX_CHILDREN in E. simpl length in E. lia.
  - apply NoDup_nil_2.
  - by apply str_children_wf.
Qed.

(** * The session *)

(** Run the sequential part of a method body on a symbolic session. *)
Ltac step_body :=
  repeat (unfold bind, get_self, modify, ret, raise, fire, _get_sequence;
          cbn [bind_outcome state_of
               _ssl_socket _send_q _recv_q _worker _dispatcher _sequence
               _terminate _events _modulus _exponent _logged_in omm_status
               omm_versions __dict__ calls
               with_socket with_send_q with_recv_q with_threads with_sequence
               with_terminate with_events with_key with_logged_in with_status
               with_versions with_dict with_calls]).

Section SessionTheorems.

Variable toxml : Node -> string.
Variable parseString : string -> exn + Node.
Variable encrypt_pin : pyval -> option string -> option string -> string.

Lemma _sendrequest_unfold message messagedata children self :
  _sendrequest toxml parseString message messagedata children self
  = _awaitresponse parseString (correlation_key message messagedata)
      (with_send_q (fun q => q ++ [construct_message toxml message messagedata children])
         self).
Proof.
  unfold _sendrequest, correlation_key, bind, modify. simpl.
  destruct messagedata as [d|]; [|done].
  by destruct (Dict.get "seq" d).
Qed.

(** C1, amended. A request whose correlation key already has a waiter
    raises the duplicate-waiter error and leaves the correlation table as it
    was, no second waiter being registered; the outbound message has been
    placed on the send queue by then. *)
Theorem duplicate_request_raises_after_enqueue message messagedata children self :
  is_Some (_events self !! correlation_key message messagedata) →
  _sendrequest toxml parseString message messagedata children self
  = Raised (Exception ("Already waiting for " +:+ correlation_key message messagedata))
      (with_send_q (fun q => q ++ [construct_message toxml message messagedata children])
         self).
Proof.
  intros [w Hw]. rewrite _sendrequest_unfold. unfold _awaitresponse.
  simpl. by rewrite Hw.
Qed.

(** ** Login gating *)

(** The commands that call [_ensure_login] raise on a session that is not
    logged in, before anything is built or queued. *)
Lemma guarded_commands_raise self :
  _logged_in self = false →
  let denied {A} (c : M A) := c self = Raised (Exception "OMMClient not logged in") self in
  (∀ uid, denied (get_account toxml parseString uid))
  ∧ (∀ e, denied (subscribe_event toxml parseString e))
  ∧ denied (get_sari toxml parseString)
  ∧ denied (get_systemname toxml parseString)
  ∧ denied (get_limits toxml parseString)
  ∧ denied (ping toxml parseString)
  ∧ (∀ uid, denied (delete_user toxml parseString uid))
  ∧ (∀ ppid, denied (delete_device toxml parseString ppid))
  ∧ (∀ ppn, denied (get_device_state toxml parseString ppn)).
Proof.
  intros Hl.
  repeat split; intros;
    unfold get_account, subscribe_event, get_sari, get_systemname, get_limits,
      ping, delete_user, delete_device, get_device_state, bind, _ensure_login;
    by rewrite Hl.
Qed.

(** C2, on the code. [get_device], which the claim cites, has no login
    gate: on a session that is not logged in it takes a sequence number,
    puts the [GetPPDev] request on the send queue, registers its waiter and
    suspends. *)
Theorem get_device_sent_without_login self ppn :
  let messagedata := Some [("seq", PInt (_sequence self)); ("ppn", ppn)] in
  let key := correlation_key "GetPPDev" messagedata in
  _logged_in self = false →
  _events self !! key = None →
  ∃ k,
    get_device toxml parseString ppn self
    = Waiting key
        (with_events (insert key (Waiter false None))
           (with_send_q
              (fun q => q ++ [construct_message toxml "GetPPDev" messagedata None])
              (with_sequence (_sequence self + 1) self)))
        k.
Proof.
  intros messagedata key _ Hfree.
  unfold get_device, bind, _get_sequence. cbn [bind_outcome].
  rewrite _sendrequest_unfold. unfold _awaitresponse.
  fold messagedata. fold key. cbn [_events with_send_q with_sequence].
  rewrite Hfree. cbn [bind_outcome]. by eexists.
Qed.

(** ** The dispatcher *)

(** C8. An envelope that is not the subscription-mode event and whose
    correlation key has no waiter is dropped: the dispatch step returns, and
    the session is the one before the step with the frame taken off the
    receive queue. *)
Theorem unmatched_response_is_dropped self item rest message attributes children :
  _recv_q self = item :: rest →
  parse_message parseString item = inr (message, attributes, children) →
  message ≠ "EventDECTSubscriptionMode" →
  _events self !! dispatch_key message attributes = None →
  _dispatch_iter toxml parseString self
  = Returned tt (with_recv_q (fun _ => rest) self).
Proof.
  intros Hq Hparse Hne Hfree. unfold _dispatch_iter. rewrite Hq, Hparse.
  rewrite decide_False by done. fold (dispatch_key message attributes).
  cbn [_events with_recv_q]. by rewrite Hfree.
Qed.

(** A matched response is stored on its waiter, whose event is set. *)
Lemma matched_response_is_stored self item rest message attributes children w :
  _recv_q self = item :: rest →
  parse_message parseString item = inr (message, attributes, children) →
  message ≠ "EventDECTSubscriptionMode" →
  _events self !! dispatch_key message attributes = Some w →
  _dispatch_iter toxml parseString self
  = Returned tt
      (with_events (insert (dispatch_key message attributes) (Waiter true (Some item)))
         (with_recv_q (fun _ => rest) self)).
Proof.
  intros Hq Hparse Hne Hw. unfold _dispatch_iter. rewrite Hq, Hparse.
  rewrite decide_False by done. fold (dispatch_key message attributes).
  cbn [_events with_recv_q]. by rewrite Hw.
Qed.

(** The subscription-mode event reaches the targets of its slot. *)
Lemma subscription_mode_event_fires self item rest attributes children targets :
  _recv_q self = item :: rest →
  parse_message parseString item
  = inr ("EventDECTSubscriptionMode", attributes, children) →
  __dict__ self !! "on_DECTSubscriptionMode" = Some targets →
  _dispatch_iter toxml parseString self
  = Returned tt
      (with_calls
         (fun l => l ++ ((fun h => (h, ("EventDECTSubscriptionMode", attributes, children)))
                          <$> targets))
         (with_recv_q (fun _ => rest) self)).
Proof.
  intros Hq Hparse Hslot. unfold _dispatch_iter. rewrite Hq, Hparse.
  rewrite decide_True by done.
  unfold __getattr__. step_body. rewrite Hslot. by step_body.
Qed.

(** C3, on the code. A frame named for one of the other declared events is
    not routed to its slot: whatever targets are registered, the dispatch
    step returns without a call to any of them, the frame being handled as a
    correlated response. *)
Theorem declared_event_is_not_fired self item rest message attributes children :
  message ∈ ["EventRFPState"; "EventHealthState"; "EventPPDevCnf"] →
  _recv_q self = item :: rest →
  parse_message parseString item = inr (message, attributes, children) →
  ∃ self',
    _dispatch_iter toxml parseString self = Returned tt self'
    ∧ calls self' = calls self
    ∧ __dict__ self' = __dict__ self.
Proof.
  intros Hin Hq Hparse.
  assert (message ≠ "EventDECTSubscriptionMode") as Hne.
  { intros ->. by repeat (apply elem_of_cons in Hin as [Hin|Hin]; [done|]);
      apply elem_of_nil in Hin. }
  destruct (_events self !! dispatch_key message attributes) as [w|] eqn:Hw.
  - erewrite matched_response_is_stored by done. by eexists.
  - erewrite unmatched_response_is_dropped by done. by eexists.
Qed.

(** ** Attaching and detaching *)

(** C10. With a [uid] or [ppn] that is not a positive [int], both calls
    return [False] at once, on the unchanged session. *)
Theorem bad_ids_return_false self uid ppn :
  not_positive_int uid ∨ not_positive_int ppn →
  attach_user_device toxml parseString uid ppn self = Returned false self
  ∧ detach_user_device toxml parseString uid ppn self = Returned false self.
Proof.
  intros Hbad. unfold attach_user_device, detach_user_device.
  assert (bad_ids uid ppn = true) as ->; [|done].
  unfold bad_ids.
  destruct uid as [| |u|], ppn as [| |p|]; simpl in *; try done.
  apply orb_true_iff. rewrite !Z.leb_le. tauto.
Qed.

(** ** Credentials *)

(** A request is on the send queue wherever the call stops. *)
Lemma _sendrequest_outbound {A} message messagedata children (f : envelope -> M A) self :
  outbound (bind_outcome (_sendrequest toxml parseString message messagedata children self) f)
  = _send_q self ++ [construct_message toxml message messagedata children].
Proof.
  rewrite _sendrequest_unfold. unfold outbound, _awaitresponse.
  cbn [_events with_send_q].
  by destruct (_events self !! _).
Qed.

Lemma get_set_if v k x d k' :
  Dict.get k' (set_if v k x d)
  = if truthy v && bool_decide (k' = k) then Some x else Dict.get k' d.
Proof.
  unfold set_if. destruct (truthy v); simpl; [|done].
  rewrite DictFacts.get_set. by case_bool_decide; case_decide.
Qed.

Lemma wf_set_if v k x d : Dict.wf d → Dict.wf (set_if v k x d).
Proof. unfold set_if. destruct (truthy v); [apply DictFacts.wf_set | done]. Qed.

Lemma create_user_outbound self name number desc1 desc2 login pin sip_user sip_password :
  outbound (create_user toxml parseString encrypt_pin name number desc1 desc2 login pin
              sip_user sip_password self)
  = _send_q self
    ++ [toxml (Element "CreatePPUser" [("seq", str_of_Z (_sequence self))]
                 [Element "user"
                    (render (new_user encrypt_pin self name number desc1 desc2 login pin sip_user
                               sip_password)) []])].
Proof.
  unfold create_user. step_body. rewrite _sendrequest_outbound.
  cbn [_send_q with_sequence]. unfold construct_message.
  rewrite CodecFacts.construct_dom_wf.
  - done.
  - unfold Dict.wf, Dict.keys. simpl. apply NoDup_singleton.
  - apply Forall_singleton. simpl. repeat apply wf_set_if.
    unfold Dict.wf, Dict.keys. simpl.
    apply NoDup_cons. split; [|apply NoDup_singleton].
    intros Hin. by apply list_elem_of_singleton in Hin.
Qed.

Lemma set_user_pin_outbound self uid pin :
  outbound (set_user_pin toxml parseString encrypt_pin uid pin self)
  = _send_q self
    ++ [toxml (Element "SetPPUser" [("seq", str_of_Z (_sequence self))]
                 [Element "user"
                    [("uid", py_str uid);
                     ("pin", encrypt_pin pin (_modulus self) (_exponent self))] []])].
Proof.
  unfold set_user_pin. step_body. by rewrite _sendrequest_outbound.
Qed.

(** C7. The [pin] field of a [SetPPUser] request, and the [pin] and
    [sipPw] fields of a [CreatePPUser] request when they are given, hold the
    value of [encrypt_pin] on the plaintext under the stored modulus and
    exponent; the plaintext reaches the request only through that value:
    two plaintexts with the same ciphertext (and, for [create_user], given
    alike) put the same message on the send queue. *)
Theorem credentials_are_sent_encrypted self uid pin name number desc1 desc2 login
    sip_user sip_password :
  let enc v := encrypt_pin v (_modulus self) (_exponent self) in
  let create p sp :=
    create_user toxml parseString encrypt_pin name number desc1 desc2 login p
      sip_user sp self in
  outbound (set_user_pin toxml parseString encrypt_pin uid pin self)
  = _send_q self
    ++ [toxml (Element "SetPPUser" [("seq", str_of_Z (_sequence self))]
                 [Element "user" [("uid", py_str uid); ("pin", enc pin)] []])]
  ∧ (∃ user,
        outbound (create pin sip_password)
        = _send_q self
          ++ [toxml (Element "CreatePPUser" [("seq", str_of_Z (_sequence self))]
                       [Element "user" user []])]
        ∧ Dict.get "pin" user = (if truthy pin then Some (enc pin) else None)
        ∧ Dict.get "sipPw" user
          = (if truthy sip_password then Some (enc sip_password) else None))
  ∧ (∀ pin',
        enc pin' = enc pin →
        outbound (set_user_pin toxml parseString encrypt_pin uid pin' self)
        = outbound (set_user_pin toxml parseString encrypt_pin uid pin self))
  ∧ (∀ pin' sip_password',
        truthy pin' = truthy pin → enc pin' = enc pin →
        truthy sip_password' = truthy sip_password →
        enc sip_password' = enc sip_password →
        outbound (create pin' sip_password') = outbound (create pin sip_password)).
Proof.
  intros enc create. split; [|split; [|split]].
  - apply set_user_pin_outbound.
  - eexists. split; [apply create_user_outbound|].
    unfold new_user, render. rewrite !DictFacts.get_fmap, !get_set_if.
    subst enc. simpl. rewrite !andb_false_r, !andb_true_r.
    split; [by destruct (truthy sip_password), (truthy pin)
           | by destruct (truthy sip_password)].
  - intros pin' Henc. rewrite !set_user_pin_outbound. subst enc. simpl in Henc.
    by rewrite Henc.
  - intros pin' sp' Ht Hc Hts Hcs. subst create enc. simpl in *.
    rewrite !create_user_outbound. unfold new_user, set_if.
    by rewrite Ht, Hc, Hts, Hcs.
Qed.

End SessionTheorems.

(** C1, as stated, fails: with a waiter registered under [PingResp], a
    second [Ping] request raises only after its message is on the send
    queue. *)
Lemma duplicate_request_is_enqueued :
  ¬ (∀ (toxml : Node -> string) (parseString : string -> exn + Node)
       message messagedata children self,
        is_Some (_events self !! correlation_key message messagedata) →
        ∃ e self',
          _sendrequest toxml parseString message messagedata children self
          = Raised e self'
          ∧ _send_q self' = _send_q self).
Proof.
  intros H.
  destruct (H (fun _ => "Ping") (fun _ => inl ExpatError) "Ping" (Some []) None
              (with_events (insert "PingResp" (Waiter false None)) __init__))
    as (e & self' & Hcall & Hq).
  - by eexists.
  - rewrite duplicate_request_raises_after_enqueue in Hcall by (by eexists).
    injection Hcall as _ <-. done.
Qed.

(** * The listings *)

Ltac simpl_state :=
  unfold with_socket, with_send_q, with_recv_q, with_threads, with_sequence,
    with_terminate, with_events, with_key, with_logged_in, with_status,
    with_versions, with_dict, with_calls;
  cbn [_ssl_socket _send_q _recv_q _worker _dispatcher _sequence _terminate
       _events _modulus _exponent _logged_in omm_status omm_versions __dict__
       calls status connected written inbound event response app].


Section Paging.

Variable toxml : Node -> string.
Variable parseString : string -> exn + Node.
Variable server : string -> string.

(** One exchange answers a request of an idle session: the frame is written,
    the response is routed to the waiter, and the caller continues with the
    decoded envelope. *)
Lemma turning_true self :
  turning self = true
  ↔ _worker self = true ∧ _dispatcher self = true ∧ _terminate self = false
    ∧ status (_ssl_socket self) = Connected.
Proof.
  unfold turning, connected.
  rewrite !andb_true_iff, negb_true_iff, bool_decide_eq_true. tauto.
Qed.

Lemma exchange_sendrequest {A} message messagedata children
    (f : envelope -> M A) self env :
  let frame := construct_message toxml message messagedata children
               +:+ String NUL EmptyString in
  idle self →
  server frame ≠ EmptyString →
  parse_message parseString (server frame) = inr env →
  env.1.1 ≠ "EventDECTSubscriptionMode" →
  dispatch_key env.1.1 env.1.2 = correlation_key message messagedata →
  exchange toxml parseString server
    (bind_outcome (_sendrequest toxml parseString message messagedata children self) f)
  = Some (f env
            (with_socket
               (fun s => Socket (status s) (written s ++ [frame]) (inbound s))
               self)).
Proof.
  intros frame [Hturn (Hsq & Hrq & Hin & Hev)] Hne Hparse Hname Hkey.
  rewrite _sendrequest_unfold. unfold _awaitresponse.
  apply turning_true in Hturn as (Hwk & Hdp & Htm & Hcon).
  destruct self as [[con wr inb] sq rq wk dp sq' tm ev md ex lg st vs di cl].
  simpl in Hsq, Hrq, Hin, Hev, Hwk, Hdp, Htm, Hcon. subst sq rq inb ev wk dp tm con.
  destruct env as [[name attrs] ch]. simpl in Hname, Hkey.
  set (key := correlation_key message messagedata) in *.
  simpl_state. rewrite lookup_empty.
  cbn [bind_outcome]. unfold exchange. cbn [state_of].
  rewrite (proj2 (turning_true _)) by done.
  unfold _work_iter at 2. simpl_state.
  unfold serve. simpl_state. rewrite last_snoc. fold frame.
  unfold _work_iter. simpl_state.
  rewrite decide_False by done. simpl_state.
  erewrite matched_response_is_stored; [| reflexivity | exact Hparse | exact Hname | ].
  2:{ cbn [_events]. rewrite Hkey. apply lookup_insert_eq. }
  unfold resume. rewrite Hkey. simpl_state.
  rewrite !lookup_insert_eq. simpl_state. rewrite Hparse.
  cbn [bind_outcome]. simpl_state.
  rewrite !delete_insert_eq, delete_empty.
  reflexivity.
Qed.

Lemma exchange_bind {A B} (o o' : outcome A) (f : A -> M B) :
  exchange toxml parseString server o = Some o' →
  exchange toxml parseString server (bind_outcome o f) = Some (bind_outcome o' f).
Proof.
  unfold exchange. destruct o as [a s|e s|key s k]; cbn [bind_outcome state_of].
  - destruct (turning s); [|done]. destruct (_dispatch_iter _ _ _); done.
  - destruct (turning s); [|done]. destruct (_dispatch_iter _ _ _); done.
  - destruct (turning s); [|done].
    destruct (_dispatch_iter _ _ _) as [[] s'| |]; [|done..].
    unfold resume. destruct (_events s' !! key) as [w|]; [|done].
    destruct (event w); [|done]. by intros [= <-].
Qed.

Lemma finishes_run {A} (o r : outcome A) n fuel :
  finishes toxml parseString server o n r →
  (n ≤ fuel)%nat →
  run toxml parseString server fuel o = Some r.
Proof.
  intros H. revert fuel. induction H as [a s|e s|o o' n r Hex _ IH]; intros fuel Hle.
  - by destruct fuel.
  - by destruct fuel.
  - destruct fuel as [|fuel]; [lia|].
    destruct o as [a s|e s|key s k].
    + unfold exchange in Hex. cbn [state_of] in Hex.
      destruct (turning s); [|done]. by destruct (_dispatch_iter _ _ _).
    + unfold exchange in Hex. cbn [state_of] in Hex.
      destruct (turning s); [|done]. by destruct (_dispatch_iter _ _ _).
    + cbn [run]. rewrite Hex. apply IH. lia.
Qed.

Lemma finishes_bind {A B} (o : outcome A) (f : A -> M B) n a s m r :
  finishes toxml parseString server o n (Returned a s) →
  finishes toxml parseString server (f a s) m r →
  finishes toxml parseString server (bind_outcome o f) (n + m) r.
Proof.
  intros H. remember (Returned a s) as r0 eqn:Hr0. revert Hr0.
  induction H as [a' s'|e s'|o o' n r0 Hex _ IH]; intros Hr0 Hf.
  - injection Hr0 as -> ->. done.
  - done.
  - simpl. eapply finishes_exchange; [by apply exchange_bind|]. by apply IH.
Qed.

Lemma parse_children_same_tag tag (l : list (Dict.t string)) l0 n :
  Forall Dict.wf l →
  n + Z.of_nat (length l) ≤ MAX_CHILDREN →
  parse_children n ((fun a => Element tag a []) <$> l) [(tag, Many l0)]
  = inr [(tag, Many (l0 ++ l))].
Proof.
  revert l0 n. induction l as [|a l IH]; intros l0 n Hwf Hn; simpl.
  - by rewrite app_nil_r.
  - apply Forall_cons in Hwf as [Ha Hl]. simpl in Hn.
    replace (n <? MAX_CHILDREN) with true by (symmetry; apply Z.ltb_lt; lia).
    unfold add_child. simpl. rewrite decide_True by done. simpl.
    rewrite decide_True by done.
    unfold read_attributes. rewrite DictFacts.of_items_wf by done.
    rewrite IH by (done || lia). by rewrite <- app_assoc.
Qed.

Lemma parse_children_page tag (page : list (Dict.t string)) :
  Forall Dict.wf page →
  Z.of_nat (length page) ≤ MAX_CHILDREN →
  parse_children 0 ((fun a => Element tag a []) <$> page) []
  = inr (page_children tag page).
Proof.
  intros Hwf Hlen. destruct page as [|a [|b l]]; [done| |].
  - apply Forall_cons in Hwf as [Ha _]. simpl.
    unfold add_child, read_attributes. simpl. by rewrite DictFacts.of_items_wf.
  - apply Forall_cons in Hwf as [Ha Hwf]. apply Forall_cons in Hwf as [Hb Hwf].
    cbn [fmap list_fmap parse_children]. simpl in Hlen.
    replace (0 <? MAX_CHILDREN) with true by done.
    replace (0 + 1 <? MAX_CHILDREN) with true by done.
    unfold add_child at 2. cbn [Dict.get Dict.set].
    unfold add_child. cbn [Dict.get Dict.set]. rewrite decide_True by done.
    cbn [Dict.set]. rewrite decide_True by done.
    unfold read_attributes. rewrite !DictFacts.of_items_wf by done.
    rewrite parse_children_same_tag by (done || lia). done.
Qed.


Lemma idle_after_request L c self : idle self → idle (after_request toxml L c self).
Proof. unfold idle, quiet, turning, after_request. by simpl_state. Qed.

Lemma written_after_request L c self :
  length (written (_ssl_socket (after_request toxml L c self)))
  = S (length (written (_ssl_socket self))).
Proof. unfold after_request. simpl_state. rewrite length_app. simpl. lia. Qed.

Lemma page_for_wf L records c :
  well_kept L records →
  Forall (fun a => Dict.wf a ∧ a ≠ []) (page_for records c).*2
  ∧ (length (page_for records c) ≤ 20)%nat.
Proof.
  intros [Hrec _]. unfold page_for. split.
  - apply Forall_fmap, Forall_take.
    apply Forall_forall. intros r Hin. apply list_elem_of_filter in Hin as [_ Hin].
    rewrite Forall_forall in Hrec. destruct (Hrec r Hin) as [Hwf Hget].
    split; [done|]. simpl. intros Hnil. by rewrite Hnil in Hget.
  - rewrite length_take. change (Z.to_nat MAX_RECORDS) with 20%nat. lia.
Qed.

Lemma request_page_exchange {A} L records c self (f : option entity * generator -> M A) :
  L = devices ∨ L = users →
  well_kept L records →
  paging_server toxml parseString L records server →
  idle self →
  exchange toxml parseString server
    (bind_outcome (request_page toxml parseString L (PInt c) self) f)
  = Some (f (page_result L (page_for records c).*2) (after_request toxml L c self)).
Proof.
  intros HL Hkept Hserver Hidle.
  destruct (page_for_wf L records c Hkept) as [Hwf Hlen].
  destruct (Hserver (_sequence self) c) as [Hne Hparse].
  unfold request_page, bind, _get_sequence. cbn [bind_outcome].
  transitivity (Some (bind_outcome
                        (Returned (page_result L (page_for records c).*2)
                           (after_request toxml L c self)) f)); [|done].
  apply exchange_bind.
  erewrite (exchange_sendrequest (request L) _ None _
              (with_sequence (_sequence self + 1) self)
              (request L +:+ "Resp", [("seq", str_of_Z (_sequence self))],
               page_children (tag L) (page_for records c).*2)).
  - f_equal. unfold after_request, request_frame.
    set (page := (page_for records c).*2) in *.
    unfold ret. simpl_state.
    destruct page as [|a [|b l]].
    + done.
    + cbn [page_children Dict.get]. rewrite decide_True by done.
      apply Forall_cons in Hwf as [[_ Ha] _]. by destruct a.
    + cbn [page_children Dict.get]. by rewrite decide_True.
  - unfold idle, quiet, turning in *. by simpl_state.
  - exact Hne.
  - unfold parse_message. unfold request_frame in Hparse. simpl_state.
    rewrite Hparse. unfold response_doc, parse_dom.
    replace ((fun r : Z * Dict.t string => Element (tag L) r.2 [])
               <$> page_for records c)
      with ((fun a => Element (tag L) a []) <$> (page_for records c).*2)
      by (by rewrite <- list_fmap_compose).
    rewrite parse_children_page.
    + done.
    + eapply Forall_impl; [exact Hwf|]. by intros ? [??].
    + rewrite length_fmap. unfold MAX_CHILDREN. lia.
  - destruct HL as [-> | ->]; done.
  - destruct HL as [-> | ->]; done.
Qed.


Lemma drain_in_page L rest page n self m l g self' :
  finishes toxml parseString server
    (drain toxml parseString L n (InPage [] page) self) m (Returned (l, g) self') →
  finishes toxml parseString server
    (drain toxml parseString L (length rest + n) (InPage rest page) self) m
    (Returned ((wrap L <$> rest) ++ l, g) self').
Proof.
  intros Hfin. induction rest as [|a rest IH]; [done|].
  cbn [length Nat.add drain]. unfold bind at 1. cbn [next]. unfold ret at 1.
  cbn [bind_outcome]. unfold bind.
  replace m with (m + 0)%nat by lia.
  eapply finishes_bind; [exact IH|]. unfold ret. simpl. apply finishes_returned.
Qed.

Lemma div_20_step (k : nat) : (20 ≤ k → k / 20 = S ((k - 20) / 20))%nat.
Proof.
  intros Hk. replace k with ((k - 20) + 1 * 20)%nat at 1 by lia.
  rewrite Nat.div_add by done. lia.
Qed.

Lemma filter_cursor (done rest : list (Z * Dict.t string)) c :
  Forall (fun r => r.1 < c) done →
  Forall (fun r => c ≤ r.1) rest →
  filter (fun r => c ≤ r.1) (done ++ rest) = rest.
Proof.
  intros Hd Hr. rewrite filter_app.
  replace (filter (fun r => c ≤ r.1) done) with (@nil (Z * Dict.t string)).
  - simpl. induction Hr as [|r rest Hr0 _ IH]; [done|].
    rewrite filter_cons_True by done. by rewrite IH.
  - symmetry. clear Hr. induction Hd as [|r done Hr0 _ IH]; [done|].
    rewrite filter_cons_False by lia. done.
Qed.


(** After the last record of a page: stop on a short page, otherwise ask for
    the page after the identifier of the last record. *)
Lemma next_after_page L page n self last_id last_rec :
  last page = Some last_rec →
  Dict.get (cursor L) last_rec = Some (str_of_Z last_id) →
  drain toxml parseString L (S n) (InPage [] page) self
  = if decide (Z.of_nat (length page) = MAX_RECORDS)
    then drain toxml parseString L (S n) (Created (PInt (last_id + 1))) self
    else Returned ([], Finished) self.
Proof.
  intros Hlast Hget. cbn [drain]. unfold bind at 1. cbn [next].
  destruct (decide _) as [Hfull|Hshort]; [|done].
  rewrite Hlast. unfold getitem. rewrite Hget. unfold lift at 1, bind at 1, ret at 1.
  cbn [bind_outcome]. rewrite PyFacts.int_of_str_of_Z.
  unfold lift at 1, bind at 1, ret at 1. cbn [bind_outcome].
  done.
Qed.

(** Around the last record [x] of a page: every record up to the page has an
    identifier below [x.1 + 1], every later record one from [x.1 + 1] on. *)
Lemma page_split_sorted L records done rest c x :
  well_kept L records →
  records = done ++ rest →
  Forall (fun r => r.1 < c) done →
  Forall (fun r => c ≤ r.1) rest →
  last (take 20 rest) = Some x →
  Forall (fun r => r.1 < x.1 + 1) (done ++ take 20 rest)
  ∧ Forall (fun r => x.1 + 1 ≤ r.1) (drop 20 rest).
Proof.
  intros [_ Hsorted] Hrec Hdone Hrest Hlast.
  apply last_Some in Hlast as [front Hfront].
  assert (rest = front ++ [x] ++ drop 20 rest) as Hsplit.
  { rewrite <- (take_drop 20 rest) at 1. by rewrite Hfront, <- app_assoc. }
  assert (c ≤ x.1) as Hcx.
  { rewrite Forall_forall in Hrest. apply Hrest. rewrite Hsplit.
    apply elem_of_app. right. apply list_elem_of_here. }
  rewrite Hrec, Hsplit in Hsorted.
  split.
  - rewrite Hfront. apply Forall_app. split; [|apply Forall_app; split].
    + eapply Forall_impl; [exact Hdone|]. intros r Hr. simpl in Hr. lia.
    + apply Forall_forall. intros r Hr.
      assert (r.1 < x.1); [|lia].
      rewrite (app_assoc done front), fmap_app in Hsorted.
      eapply StronglySorted_app_1_elem_of; [exact Hsorted | |].
      * apply list_elem_of_fmap_2, elem_of_app. by right.
      * apply list_elem_of_fmap_2. apply list_elem_of_here.
    + apply Forall_singleton. lia.
  - apply Forall_forall. intros r Hr.
    assert (x.1 < r.1); [|lia].
    rewrite (app_assoc front), (app_assoc done), fmap_app in Hsorted.
    eapply StronglySorted_app_1_elem_of; [exact Hsorted | |].
    + apply list_elem_of_fmap_2. rewrite !elem_of_app. right. right.
      apply list_elem_of_here.
    + by apply list_elem_of_fmap_2.
Qed.

Lemma drain_pages L records :
  L = devices ∨ L = users →
  well_kept L records →
  paging_server toxml parseString L records server →
  ∀ m rest done c n self,
    length rest = m →
    records = done ++ rest →
    Forall (fun r => r.1 < c) done →
    Forall (fun r => c ≤ r.1) rest →
    idle self →
    (length rest < n)%nat →
    ∃ self',
      finishes toxml parseString server
        (drain toxml parseString L n (Created (PInt c)) self)
        (length rest / 20 + 1)
        (Returned (wrap L <$> rest.*2, Finished) self')
      ∧ idle self'
      ∧ length (written (_ssl_socket self'))
        = (length (written (_ssl_socket self)) + (length rest / 20 + 1))%nat.
Proof.
  intros HL Hkept Hserver m.
  induction m as [m IH] using lt_wf_ind.
  intros rest done c n self Hm Hrec Hdone Hrest Hidle Hn.
  destruct n as [|n]; [lia|].
  assert (page_for records c = take 20 rest) as Hpage.
  { unfold page_for. by rewrite Hrec, filter_cursor. }
  cbn [drain]. unfold bind at 1. cbn [next].
  destruct rest as [|r rest0].
  { (* no record left: one empty page *)
    exists (after_request toxml L c self). split; [|split].
    - eapply finishes_exchange; [by apply (request_page_exchange L records)|].
      rewrite Hpage. simpl. apply finishes_returned.
    - by apply idle_after_request.
    - rewrite written_after_request. simpl. lia. }
  assert (∃ tl, take 20 (r :: rest0) = r :: tl ∧ (length tl < 20)%nat
                ∧ length (take 20 (r :: rest0)) = S (length tl))
    as (tl & Htake & Htl & Hlen).
  { exists (take 19 rest0). split; [reflexivity|]. split.
    - rewrite length_take. lia.
    - reflexivity. }
  remember (r :: rest0) as rest eqn:Hrest0.
  set (s1 := after_request toxml L c self).
  destruct (last (take 20 rest)) as [x|] eqn:Hlast;
    [|apply last_None in Hlast; by rewrite Htake in Hlast].
  assert (x ∈ rest) as Hxin.
  { apply last_Some in Hlast as [front Hfront].
    rewrite <- (take_drop 20 rest), Hfront. rewrite !elem_of_app.
    left. right. apply list_elem_of_here. }
  assert (Dict.get (cursor L) x.2 = Some (str_of_Z x.1)) as Hxid.
  { destruct Hkept as [Hk _]. rewrite Forall_forall in Hk.
    apply Hk. rewrite Hrec. apply elem_of_app. by right. }
  (* the rest of the run, from the end of the first page on *)
  assert (∃ self' k,
            finishes toxml parseString server
              (drain toxml parseString L (S (n - S (length tl)))
                 (InPage [] (take 20 rest).*2) s1) k
              (Returned (wrap L <$> (drop 20 rest).*2, Finished) self')
            ∧ idle self'
            ∧ length (written (_ssl_socket self'))
              = (length (written (_ssl_socket s1)) + k)%nat
            ∧ S k = (length rest / 20 + 1)%nat) as (self' & k & Hfin & Hidle' & Hwr & Hk).
  { rewrite (next_after_page L _ _ s1 x.1 x.2);
      [| by rewrite fmap_last, Hlast | done].
    rewrite length_fmap.
    destruct (decide _) as [Hfull|Hshort].
    - (* a full page: the listing goes on from the next cursor *)
      unfold MAX_RECORDS in Hfull.
      assert (20 ≤ length rest)%nat as Hge.
      { rewrite length_take in Hfull. lia. }
      destruct (IH (length (drop 20 rest)) ltac:(rewrite length_drop; lia)
                  (drop 20 rest) (done ++ take 20 rest) (x.1 + 1)
                  (S (n - S (length tl))) s1) as (self' & Hfin & Hidle' & Hwr).
      + done.
      + by rewrite <- app_assoc, take_drop.
      + by eapply page_split_sorted.
      + by eapply page_split_sorted.
      + by apply idle_after_request.
      + rewrite length_drop. lia.
      + exists self', (length (drop 20 rest) / 20 + 1)%nat.
        split; [done|]. split; [done|]. split; [done|].
        rewrite length_drop. rewrite (div_20_step (length rest)) by done. lia.
    - (* a short page is the last one *)
      unfold MAX_RECORDS in Hshort.
      assert (length rest < 20)%nat as Hlt.
      { rewrite length_take in Hshort. lia. }
      exists s1, 0%nat. split; [|split; [|split]].
      + rewrite drop_ge by lia. apply finishes_returned.
      + by apply idle_after_request.
      + lia.
      + rewrite Nat.div_small by done. lia. }
  exists self'. split; [|split].
  - rewrite <- Hk.
    eapply finishes_exchange; [by apply (request_page_exchange L records)|].
    fold s1. rewrite Hpage. rewrite Htake in Hfin |- *.
    cbn [fmap list_fmap page_result]. unfold bind.
    replace n with (length tl.*2 + S (n - S (length tl)))%nat at 1
      by (rewrite length_fmap; rewrite <- Hlen, length_take in *; lia).
    replace k with (k + 0)%nat by lia.
    eapply finishes_bind; [apply drain_in_page; exact Hfin|].
    unfold ret. cbn [fst snd].
    replace (wrap L <$> rest.*2)
      with (wrap L r.2 :: ((wrap L <$> tl.*2) ++ (wrap L <$> (drop 20 rest).*2))).
    + apply finishes_returned.
    + rewrite <- (take_drop 20 rest) at 2. rewrite Htake.
      by rewrite !fmap_app.
  - done.
  - rewrite Hwr. unfold s1. rewrite written_after_request. lia.
Qed.


Lemma ceil_div_20 (k : nat) :
  ((k mod 20 = 0 → k / 20 + 1 = ceil_div k 20 + 1)
   ∧ (k mod 20 ≠ 0 → k / 20 + 1 = ceil_div k 20))%nat.
Proof.
  unfold ceil_div.
  pose proof (Nat.div_mod_eq k 20) as Hk.
  pose proof (Nat.mod_upper_bound k 20 ltac:(lia)) as Hr.
  split; intros Hmod.
  - f_equal. apply (Nat.div_unique _ _ _ 19); lia.
  - apply (Nat.div_unique _ _ _ (k mod 20 - 1)); lia.
Qed.

(** A full run of a listing against a paging server. *)
Lemma listing_run L records start n fuel self :
  L = devices ∨ L = users →
  well_kept L records →
  Forall (fun r => start ≤ r.1) records →
  paging_server toxml parseString L records server →
  idle self →
  (length records < n)%nat →
  (length records / 20 < fuel)%nat →
  ∃ self',
    run toxml parseString server fuel
      (drain toxml parseString L n (Created (PInt start)) self)
    = Some (Returned (wrap L <$> records.*2, Finished) self')
    ∧ frames_written self (Returned (wrap L <$> records.*2, Finished) self')
      = (length records / 20 + 1)%nat.
Proof.
  intros HL Hkept Hstart Hserver Hidle Hn Hfuel.
  destruct (drain_pages L records HL Hkept Hserver (length records) records []
              start n self eq_refl eq_refl (Forall_nil_2 _) Hstart Hidle Hn)
    as (self' & Hfin & _ & Hwr).
  exists self'. split.
  - eapply finishes_run; [exact Hfin | lia].
  - unfold frames_written. cbn [state_of]. rewrite Hwr. lia.
Qed.

(** C6, amended. On a session at rest (connected, its threads running,
    nothing pending), against a server that holds [k] records with
    increasing identifiers from [start] on and answers every page request
    with the first 20 records from the cursor on, or with all of them when
    fewer are left, the drained generator of [get_devices] or [get_users]
    yields the [k] records in order and stops, and the pump has written
    [k / 20 + 1] request frames: one more than [ceil (k / 20)] when [k] is a
    multiple of 20, the last answer being the empty page, and
    [ceil (k / 20)] otherwise. *)
Theorem listing_yields_all_records L records start n fuel self :
  L = devices ∨ L = users →
  well_kept L records →
  Forall (fun r => start ≤ r.1) records →
  paging_server toxml parseString L records server →
  idle self →
  (length records < n)%nat →
  (length records / 20 < fuel)%nat →
  ∃ self',
    let r := Returned (wrap L <$> records.*2, Finished) self' in
    run toxml parseString server fuel
      (drain toxml parseString L n (Created (PInt start)) self)
    = Some r
    ∧ frames_written self r = (length records / 20 + 1)%nat
    ∧ ((length records mod 20 = 0)%nat →
       frames_written self r = (ceil_div (length records) 20 + 1)%nat)
    ∧ ((length records mod 20 ≠ 0)%nat →
       frames_written self r = ceil_div (length records) 20).
Proof.
  intros HL Hkept Hstart Hserver Hidle Hn Hfuel.
  destruct (listing_run L records start n fuel self) as (self' & Hrun & Hwr);
    try done.
  exists self'. cbn zeta. rewrite Hwr.
  destruct (ceil_div_20 (length records)) as [H0 H1]. done.
Qed.

End Paging.

(** * The stand-in XML library reads back what it writes *)

Module LoopbackFacts.
Import Loopback.

Lemma tree_to_node_to_tree : ∀ n, tree_to_node (node_to_tree n) = n.
Proof.
  fix IH 1. intros [t a cs|d]; simpl; [|done]. f_equal.
  induction cs as [|c cs IHcs]; simpl; [done|]. by rewrite IH, IHcs.
Qed.

Lemma unbits_bits p : unbits (bits p) = Some p.
Proof. induction p as [p IH|p IH|]; simpl; [by rewrite IH..|done]. Qed.

Lemma bits_nonempty p : bits p ≠ EmptyString.
Proof. by destruct p. Qed.

Lemma rstrip_bits p : rstrip NUL (bits p) = bits p.
Proof.
  induction p as [p IH|p IH|]; simpl; [| |done];
    rewrite IH; pose proof (bits_nonempty p); by destruct (bits p).
Qed.

Lemma rstrip_frame s :
  rstrip NUL (s +:+ String NUL EmptyString) = rstrip NUL s.
Proof.
  induction s as [|a s IH]; simpl; [done|]. by rewrite IH.
Qed.

(** The stand-in reads back every document, framed or not. *)
Lemma parse_toxml d : parseString (rstrip NUL (toxml d)) = inr d.
Proof.
  unfold parseString, toxml. rewrite rstrip_bits, unbits_bits. simpl.
  by rewrite decode_encode, tree_to_node_to_tree.
Qed.

Lemma parse_frame d :
  parseString (rstrip NUL (toxml d +:+ String NUL EmptyString)) = inr d.
Proof. rewrite rstrip_frame. apply parse_toxml. Qed.

Lemma toxml_nonempty d : toxml d ≠ EmptyString.
Proof. apply bits_nonempty. Qed.

Lemma reads_back_all d : reads_back toxml parseString d.
Proof. apply parse_toxml. Qed.

Lemma server_pages L records :
  L = devices ∨ L = users →
  paging_server toxml parseString L records (server L records).
Proof.
  intros HL seq c.
  assert (server L records (request_frame toxml L seq c)
          = toxml (response_doc L seq (page_for records c))) as ->.
  { unfold server, request_frame, construct_message. rewrite parse_frame.
    destruct HL as [-> | ->]; simpl; by rewrite !PyFacts.int_of_str_of_Z. }
  split; [apply toxml_nonempty | apply parse_toxml].
Qed.

End LoopbackFacts.

(** * The entity wrapper *)

Module LastPPActionFacts.
Import LastPPAction.

Lemma init_from_attributes_fresh (attributes : Dict.t value) (self : t) k :
  Dict.get k attributes = None →
  _init_from_attributes attributes self !! k = self !! k.
Proof.
  unfold _init_from_attributes. revert self.
  induction attributes as [|[k' v'] l IH]; intros self; simpl; [done|].
  destruct (decide (k = k')) as [->|Hne]; [done|]. intros Hget.
  rewrite IH by done. unfold t in *. by rewrite lookup_insert_ne.
Qed.

Lemma init_from_attributes_last (attributes : Dict.t value) (self : t) k v :
  Dict.wf attributes →
  Dict.get k attributes = Some v →
  _init_from_attributes attributes self !! k = Some v.
Proof.
  unfold _init_from_attributes, Dict.wf, Dict.keys. revert self.
  induction attributes as [|[k' v'] l IH]; intros self; simpl; [done|].
  intros Hnd. apply NoDup_cons in Hnd as [Hnotin Hnd].
  destruct (decide (k = k')) as [->|Hne].
  - intros [= ->].
    rewrite (init_from_attributes_fresh l _ k').
    + unfold t. apply lookup_insert_eq.
    + by apply DictFacts.get_None.
  - intros Hget. by apply IH.
Qed.

(** The dictionary of changes of a fresh wrapper is empty, unless the
    attribute map shadows it. *)
Lemma init_changes attributes now :
  Dict.get "_changes" attributes = None →
  __init__ (Some attributes) now !! "_changes" = Some (VDict []).
Proof.
  intros Hget. unfold __init__, t in *.
  rewrite lookup_insert_ne by done.
  rewrite init_from_attributes_fresh by done.
  unfold t. apply lookup_insert_eq.
Qed.

(** The lock of a fresh wrapper is the one of the class, unless the
    attribute map shadows it. *)
Lemma init_lock attributes now :
  Dict.get "_changelock" attributes = None →
  __init__ (Some attributes) now !! "_changelock" = None.
Proof.
  intros Hget. unfold __init__, t in *.
  rewrite lookup_insert_ne by done.
  rewrite init_from_attributes_fresh by done.
  unfold t. by rewrite !lookup_insert_ne by done.
Qed.

(** The guard of [__setattr__] protects [uid] once it is set. *)
Lemma uid_is_immutable (self : t) x v :
  self !! "uid" = Some x →
  __setattr__ "uid" v self = inl (Exception "Cannot change uid !").
Proof.
  intros Hx. unfold __setattr__. rewrite decide_True; [done|].
  split; [done | by eexists].
Qed.

(** Any other assignment succeeds, is recorded in [_changes], and is read
    back by name. *)
Lemma setattr_other (self : t) key v changes :
  key ≠ "uid" ∨ self !! "uid" = None →
  self !! "_changelock" = None →
  self !! "_changes" = Some (VDict changes) →
  __setattr__ key v self
  = inr (<[key := v]> (<["_changes" := VDict (Dict.set key v changes)]> self))
  ∧ getattr key
      (<[key := v]> (<["_changes" := VDict (Dict.set key v changes)]> self))
    = inr v.
Proof.
  intros Hkey Hlock Hch. unfold __setattr__, getattr, t in *.
  rewrite decide_False.
  - rewrite Hlock, Hch. cbn. by rewrite lookup_insert_eq.
  - intros [-> [x Hx]]. destruct Hkey as [?|Hnone]; [done|].
    by rewrite Hnone in Hx.
Qed.

End LastPPActionFacts.

(** C9, on the code. The guard of [LastPPAction.__setattr__] names [uid];
    the identity of a last-action record, its device id [ppn], is not
    protected: on a wrapper constructed from an attribute map that holds
    neither [_changes] nor [_changelock], as the attributes of a response
    do, assigning [ppn] succeeds and the new value is read back. *)
Theorem ppn_is_assignable attributes now v :
  Dict.get "_changes" attributes = None →
  Dict.get "_changelock" attributes = None →
  ∃ action,
    LastPPAction.__setattr__ "ppn" v (LastPPAction.__init__ (Some attributes) now)
    = inr action
    ∧ LastPPAction.getattr "ppn" action = inr v.
Proof.
  intros Hfresh Hlock.
  destruct (LastPPActionFacts.setattr_other
              (LastPPAction.__init__ (Some attributes) now) "ppn" v [])
    as [Hset Hget].
  - by left.
  - by apply LastPPActionFacts.init_lock.
  - by apply LastPPActionFacts.init_changes.
  - eexists. split; [exact Hset | exact Hget].
Qed.

(** * The statements on concrete sessions *)

Lemma seqZ_sorted m n : StronglySorted Z.lt (seqZ m n).
Proof.
  unfold seqZ. generalize (Z.to_nat n) as k. intros k. revert m.
  assert (∀ j m, StronglySorted Z.lt ((fun i => Z.of_nat i + m) <$> seq j k)) as H.
  { induction k as [|k IH]; intros j m; simpl; constructor.
    - apply IH.
    - apply Forall_fmap, Forall_forall. intros i Hi. simpl.
      apply elem_of_seq in Hi. lia. }
  intros m. apply H.
Qed.

Lemma device_records_well_kept n : well_kept devices (device_records n).
Proof.
  unfold device_records. split.
  - apply Forall_fmap, Forall_forall. intros i _. simpl. split.
    + unfold Dict.wf, Dict.keys. simpl. apply NoDup_singleton.
    + done.
  - match goal with
    | |- StronglySorted _ ?l => replace l with (seqZ 1 n)
    end; [apply seqZ_sorted|].
    generalize (seqZ 1 n) as l.
    induction l as [|i l IH]; [done|]. cbn. f_equal. exact IH.
Qed.

Lemma device_records_from_1 n : Forall (fun r => 0 ≤ r.1) (device_records n).
Proof.
  unfold device_records. apply Forall_fmap, Forall_forall. intros i Hi. simpl.
  apply elem_of_seqZ in Hi. lia.
Qed.

Lemma device_records_length n : length (device_records n) = Z.to_nat n.
Proof. unfold device_records. by rewrite length_fmap, length_seqZ. Qed.

Lemma idle_running : idle running.
Proof. by repeat split. Qed.

(** C6, as stated, fails: twenty records are a multiple of the page size,
    and on a logged-in session at rest the listing takes two requests, not
    [ceil (20 / 20) = 1]. *)
Lemma full_last_page_costs_a_request :
  ¬ (∀ (toxml : Node -> string) (parseString : string -> exn + Node)
       (server : string -> string) L records start n fuel self,
        L = devices ∨ L = users →
        well_kept L records →
        Forall (fun r => start ≤ r.1) records →
        paging_server toxml parseString L records server →
        idle self →
        (length records < n)%nat →
        (length records / 20 < fuel)%nat →
        ∃ self',
          let r := Returned (wrap L <$> records.*2, Finished) self' in
          run toxml parseString server fuel
            (drain toxml parseString L n (Created (PInt start)) self)
          = Some r
          ∧ ((length records mod 20 = 0)%nat →
             frames_written self r = ceil_div (length records) 20)).
Proof.
  intros H.
  pose proof (device_records_length 20) as Hlen.
  change (Z.to_nat 20) with 20%nat in Hlen.
  assert (∃ self',
            run Loopback.toxml Loopback.parseString
              (Loopback.server devices (device_records 20)) 2
              (drain Loopback.toxml Loopback.parseString devices 21
                 (Created (PInt 0)) running)
            = Some (Returned (wrap devices <$> (device_records 20).*2, Finished) self')
            ∧ frames_written running
                (Returned (wrap devices <$> (device_records 20).*2, Finished) self')
              = 2%nat) as (s2 & Hrun2 & Hfr2).
  { destruct (listing_run Loopback.toxml Loopback.parseString
                (Loopback.server devices (device_records 20)) devices
                (device_records 20) 0 21 2 running) as (s & Hrun & Hfr).
    - by left.
    - apply device_records_well_kept.
    - apply device_records_from_1.
    - apply LoopbackFacts.server_pages. by left.
    - apply idle_running.
    - rewrite Hlen. lia.
    - rewrite Hlen. cbn. lia.
    - exists s. split; [done|]. rewrite Hfr, Hlen. reflexivity. }
  destruct (H Loopback.toxml Loopback.parseString
              (Loopback.server devices (device_records 20)) devices
              (device_records 20) 0 21%nat 2%nat running) as (s1 & Hrun1 & Hfr1).
  - by left.
  - apply device_records_well_kept.
  - apply device_records_from_1.
  - apply LoopbackFacts.server_pages. by left.
  - apply idle_running.
  - rewrite Hlen. lia.
  - rewrite Hlen. cbn. lia.
  - cbn zeta in Hrun1, Hfr1. rewrite Hrun2 in Hrun1.
    assert (s2 = s1) as -> by congruence.
    rewrite Hlen in Hfr1. specialize (Hfr1 eq_refl).
    rewrite Hfr2 in Hfr1. done.
Qed.

(** * Witnesses *)

Lemma duplicate_request_raises_after_enqueue_witness :
  is_Some (_events pinging !! correlation_key "Ping" (Some []))
  ∧ _sendrequest Loopback.toxml Loopback.parseString "Ping" (Some []) None pinging
    = Raised (Exception "Already waiting for PingResp")
        (with_send_q
           (fun q => q ++ [construct_message Loopback.toxml "Ping" (Some []) None])
           pinging).
Proof.
  assert (is_Some (_events pinging !! correlation_key "Ping" (Some []))) as H
    by (eexists; apply lookup_insert_eq).
  split; [exact H|].
  exact (duplicate_request_raises_after_enqueue Loopback.toxml Loopback.parseString
           "Ping" (Some []) None pinging H).
Defined.

Lemma get_device_sent_without_login_witness :
  ∃ k,
    get_device Loopback.toxml Loopback.parseString (PInt 1) __init__
    = Waiting "GetPPDevResp0"
        (with_events (insert "GetPPDevResp0" (Waiter false None))
           (with_send_q
              (fun q => q ++ [construct_message Loopback.toxml "GetPPDev"
                                (Some [("seq", PInt 0); ("ppn", PInt 1)]) None])
              (with_sequence 1 __init__)))
        k.
Proof.
  exact (get_device_sent_without_login Loopback.toxml Loopback.parseString
           __init__ (PInt 1) eq_refl (lookup_empty _)).
Defined.

Lemma health_frame_parses :
  parse_message Loopback.parseString health_frame
  = inr ("EventHealthState", [("state", "ok")], []).
Proof.
  unfold parse_message, health_frame. by rewrite LoopbackFacts.parse_frame.
Qed.

Lemma declared_event_is_not_fired_witness :
  ∃ self',
    _dispatch_iter Loopback.toxml Loopback.parseString subscribed = Returned tt self'
    ∧ calls self' = calls subscribed
    ∧ __dict__ self' = __dict__ subscribed.
Proof.
  apply (declared_event_is_not_fired Loopback.toxml Loopback.parseString subscribed
           health_frame [] "EventHealthState" [("state", "ok")] []).
  - apply list_elem_of_further, list_elem_of_here.
  - reflexivity.
  - exact health_frame_parses.
Defined.

Lemma late_frame_parses :
  parse_message Loopback.parseString late_frame
  = inr ("GetPPDevResp", [("seq", "5")], []).
Proof.
  unfold parse_message, late_frame. by rewrite LoopbackFacts.parse_frame.
Qed.

Lemma unmatched_response_is_dropped_witness :
  _dispatch_iter Loopback.toxml Loopback.parseString
    (with_recv_q (fun _ => [late_frame]) __init__)
  = Returned tt (with_recv_q (fun _ => []) (with_recv_q (fun _ => [late_frame]) __init__)).
Proof.
  apply (unmatched_response_is_dropped Loopback.toxml Loopback.parseString
           (with_recv_q (fun _ => [late_frame]) __init__) late_frame []
           "GetPPDevResp" [("seq", "5")] []).
  - reflexivity.
  - exact late_frame_parses.
  - discriminate.
  - apply lookup_empty.
Defined.

Lemma bad_ids_return_false_witness :
  attach_user_device Loopback.toxml Loopback.parseString (PInt 0) (PInt 3) __init__
  = Returned false __init__
  ∧ detach_user_device Loopback.toxml Loopback.parseString (PInt 0) (PInt 3) __init__
    = Returned false __init__.
Proof.
  apply (bad_ids_return_false Loopback.toxml Loopback.parseString __init__
           (PInt 0) (PInt 3)).
  left. simpl. lia.
Defined.

Lemma parse_construct_roundtrip_witness :
  parse_message Loopback.parseString
    (construct_message Loopback.toxml "Subscribe" (Some (str_attrs [("seq", "1")]))
       (Some (str_children [("e", [("cmd", "On"); ("eventType", "HealthState")])])))
  = inr ("Subscribe", [("seq", "1")],
         [("e", One [("cmd", "On"); ("eventType", "HealthState")])]).
Proof.
  apply (parse_construct_roundtrip Loopback.toxml Loopback.parseString "Subscribe"
           [("seq", "1")] [("e", [("cmd", "On"); ("eventType", "HealthState")])]).
  - apply NoDup_singleton.
  - apply NoDup_singleton.
  - apply Forall_singleton. apply NoDup_cons. split; [|apply NoDup_singleton].
    intros H. apply list_elem_of_singleton in H. discriminate.
  - unfold MAX_CHILDREN. simpl. lia.
  - apply LoopbackFacts.reads_back_all.
Defined.


Lemma listing_yields_all_records_witness :
  ∃ self',
    let r := Returned (wrap devices <$> (device_records 20).*2, Finished) self' in
    run Loopback.toxml Loopback.parseString
      (Loopback.server devices (device_records 20)) 2
      (drain Loopback.toxml Loopback.parseString devices 21 (Created (PInt 0)) running)
    = Some r
    ∧ frames_written running r = (length (device_records 20) / 20 + 1)%nat
    ∧ ((length (device_records 20) mod 20 = 0)%nat →
       frames_written running r = (ceil_div (length (device_records 20)) 20 + 1)%nat)
    ∧ ((length (device_records 20) mod 20 ≠ 0)%nat →
       frames_written running r = ceil_div (length (device_records 20)) 20).
Proof.
  apply (listing_yields_all_records Loopback.toxml Loopback.parseString
           (Loopback.server devices (device_records 20)) devices
           (device_records 20) 0 21 2 running).
  - by left.
  - apply device_records_well_kept.
  - apply device_records_from_1.
  - apply LoopbackFacts.server_pages. by left.
  - apply idle_running.
  - rewrite device_records_length. vm_compute. lia.
  - rewrite device_records_length. vm_compute. lia.
Defined.

Lemma ppn_is_assignable_witness :
  ∃ action,
    LastPPAction.__setattr__ "ppn" (LastPPAction.VPy (PStr "6"))
      (LastPPAction.__init__
         (Some [("ppn", LastPPAction.VPy (PStr "5"));
                ("trType", LastPPAction.VPy (PStr "None"))]) 0)
    = inr action
    ∧ LastPPAction.getattr "ppn" action = inr (LastPPAction.VPy (PStr "6")).
Proof.
  apply (ppn_is_assignable
           [("ppn", LastPPAction.VPy (PStr "5"));
            ("trType", LastPPAction.VPy (PStr "None"))] 0
           (LastPPAction.VPy (PStr "6"))).
  - reflexivity.
  - reflexivity.
Defined.

(** * More of the codec *)

Module CodecMore.
Import CodecFacts DictFacts.

Lemma fold_left_folded_Many (l l0 : list (Dict.t string)) :
  fold_left (fun st m => Some (folded st m)) l (Some (Many l0))
  = Some (Many (l0 ++ l)).
Proof.
  revert l0. induction l as [|m l IH]; intros l0; simpl.
  - by rewrite app_nil_r.
  - by rewrite IH, <- app_assoc.
Qed.

Lemma fold_left_folded_None (l : list (Dict.t string)) :
  fold_left (fun st m => Some (folded st m)) l None = fold_value l.
Proof.
  destruct l as [|m1 [|m2 l]]; simpl; [done..|].
  by rewrite fold_left_folded_Many.
Qed.

(** The loop, tag by tag: the stored value is extended by the occurrences of
    the tag among the children the cap lets through. *)
Lemma parse_children_get l n children res t :
  parse_children n l children = inr res →
  Dict.get t res
  = fold_left (fun st m => Some (folded st m))
      (occurrences t (take (Z.to_nat (MAX_CHILDREN - n)) l)) (Dict.get t children).
Proof.
  revert n children. induction l as [|c l IH]; intros n children; simpl.
  - intros [= <-]. by rewrite take_nil.
  - destruct (n <? MAX_CHILDREN) eqn:Hn.
    + apply Z.ltb_lt in Hn.
      destruct c as [tg a gc|d]; [|done]. intros Hres.
      rewrite (IH _ _ Hres).
      replace (Z.to_nat (MAX_CHILDREN - n))
        with (S (Z.to_nat (MAX_CHILDREN - (n + 1)))) by lia.
      cbn [take occurrences omap list_omap]. unfold occurrences.
      rewrite add_child_get.
      destruct (decide (tg = t)) as [->|Hne].
      * by rewrite decide_True.
      * by rewrite decide_False.
    + apply Z.ltb_ge in Hn. intros [= <-].
      replace (Z.to_nat (MAX_CHILDREN - n)) with 0%nat by lia. done.
Qed.

Lemma parse_children_ok l n children :
  Forall is_element (take (Z.to_nat (MAX_CHILDREN - n)) l) →
  ∃ res, parse_children n l children = inr res.
Proof.
  revert n children. induction l as [|c l IH]; intros n children; simpl.
  - by eexists.
  - destruct (n <? MAX_CHILDREN) eqn:Hn; [|by eexists].
    apply Z.ltb_lt in Hn.
    replace (Z.to_nat (MAX_CHILDREN - n))
      with (S (Z.to_nat (MAX_CHILDREN - (n + 1)))) by lia.
    cbn [take]. intros Hall. apply Forall_cons in Hall as [Hc Hl].
    destruct c as [tg a gc|d]; [|done]. by apply IH.
Qed.

Lemma parse_children_error l n children e :
  parse_children n l children = inl e →
  e = AttributeError
  ∧ ¬ Forall is_element (take (Z.to_nat (MAX_CHILDREN - n)) l).
Proof.
  revert n children. induction l as [|c l IH]; intros n children; simpl; [done|].
  destruct (n <? MAX_CHILDREN) eqn:Hn; [|done].
  apply Z.ltb_lt in Hn.
  replace (Z.to_nat (MAX_CHILDREN - n))
    with (S (Z.to_nat (MAX_CHILDREN - (n + 1)))) by lia.
  cbn [take]. destruct c as [tg a gc|d].
  - intros Hres. destruct (IH _ _ Hres) as [-> Hnot]. split; [done|].
    intros Hall. apply Forall_cons in Hall as [_ Hl]. by apply Hnot.
  - intros [= <-]. split; [done|].
    intros Hall. by apply Forall_cons in Hall as [Hc _].
Qed.

End CodecMore.

(** X1. The decoded children of a frame, tag by tag: a tag that no child
    among the first 5000 carries is absent, a tag carried by one child maps
    to the attribute map of that child, a tag carried by several maps to the
    list of their attribute maps in document order. *)
Theorem decoded_children_by_tag name a childs env t :
  parse_dom (Element name a childs) = inr env →
  Dict.get t env.2
  = fold_value (occurrences t (take (Z.to_nat MAX_CHILDREN) childs)).
Proof.
  unfold parse_dom.
  destruct (parse_children 0 childs []) as [e|res] eqn:Hres; [done|].
  intros [= <-]. cbn [snd].
  rewrite (CodecMore.parse_children_get _ _ _ _ t Hres).
  rewrite Z.sub_0_r. apply CodecMore.fold_left_folded_None.
Qed.

Lemma decoded_children_by_tag_witness :
  Dict.get "pp" [("pp", Many [[("ppn", "1")]; [("ppn", "2")]; [("ppn", "3")]])]
  = fold_value (occurrences "pp" (take (Z.to_nat MAX_CHILDREN) three_pp)).
Proof.
  exact (decoded_children_by_tag "GetPPDevResp" [] three_pp
           ("GetPPDevResp", [],
            [("pp", Many [[("ppn", "1")]; [("ppn", "2")]; [("ppn", "3")]])])
           "pp" eq_refl).
Defined.

(** X2. The decoder looks at the first 5000 child nodes only: whatever
    follows them, elements or not, does not change the result. *)
Theorem decoding_stops_at_the_cap name a childs :
  parse_dom (Element name a childs)
  = parse_dom (Element name a (take (Z.to_nat MAX_CHILDREN) childs)).
Proof.
  unfold parse_dom.
  rewrite <- (take_drop (Z.to_nat MAX_CHILDREN) childs) at 1.
  rewrite CodecFacts.parse_children_app.
  destruct (parse_children 0 (take _ childs) []) as [e|ch]; [done|].
  destruct (decide (length childs ≤ Z.to_nat MAX_CHILDREN)%nat) as [Hle|Hgt].
  - by rewrite drop_ge.
  - rewrite length_take_le by lia.
    destruct (drop _ childs); simpl; [done|].
    by replace (0 + Z.of_nat (Z.to_nat MAX_CHILDREN) <? MAX_CHILDREN) with false.
Qed.

(** X3. Decoding succeeds exactly when the first 5000 child nodes are all
    elements; a text node among them (the [attributes] of which is [None])
    makes it raise [AttributeError]. *)
Theorem decoding_needs_element_children name a childs :
  (Forall is_element (take (Z.to_nat MAX_CHILDREN) childs) →
   ∃ env, parse_dom (Element name a childs) = inr env)
  ∧ (¬ Forall is_element (take (Z.to_nat MAX_CHILDREN) childs) →
     parse_dom (Element name a childs) = inl AttributeError).
Proof.
  unfold parse_dom. split.
  - intros Hall.
    destruct (CodecMore.parse_children_ok childs 0 []) as [res ->].
    + by rewrite Z.sub_0_r.
    + by eexists.
  - intros Hnot.
    destruct (parse_children 0 childs []) as [e|res] eqn:Hres.
    + by apply CodecMore.parse_children_error in Hres as [-> _].
    + exfalso. apply Hnot. clear Hnot.
      assert (∀ l n ch r, parse_children n l ch = inr r →
                Forall is_element (take (Z.to_nat (MAX_CHILDREN - n)) l)) as H.
      { clear. induction l as [|c l IH]; intros n ch r; simpl.
        - intros _. rewrite take_nil. constructor.
        - destruct (n <? MAX_CHILDREN) eqn:Hn.
          + apply Z.ltb_lt in Hn.
            replace (Z.to_nat (MAX_CHILDREN - n))
              with (S (Z.to_nat (MAX_CHILDREN - (n + 1)))) by lia.
            cbn [take]. destruct c as [tg a gc|d]; [|done].
            intros Hr. constructor; [done|]. by eapply IH.
          + apply Z.ltb_ge in Hn. intros _.
            replace (Z.to_nat (MAX_CHILDREN - n)) with 0%nat by lia.
            constructor. }
      specialize (H _ _ _ _ Hres). by rewrite Z.sub_0_r in H.
Qed.

Lemma decoding_needs_element_children_witness :
  (∃ env, parse_dom (Element "GetPPDevResp" [] three_pp) = inr env)
  ∧ parse_dom (Element "GetPPDevResp" [] (Text " " :: three_pp)) = inl AttributeError.
Proof.
  split.
  - apply (proj1 (decoding_needs_element_children "GetPPDevResp" [] three_pp)).
    repeat constructor.
  - apply (proj2 (decoding_needs_element_children "GetPPDevResp" []
                    (Text " " :: three_pp))).
    intros H. by apply Forall_cons in H as [H _].
Defined.

Section CodecMoreTheorems.

Variable toxml : Node -> string.
Variable parseString : string -> exn + Node.

Lemma rstrip_only_nuls n : rstrip NUL (nuls n) = EmptyString.
Proof.
  induction n as [|n IHn]; simpl; [done|]. rewrite IHn. reflexivity.
Qed.

Lemma rstrip_nuls s n : rstrip NUL (s +:+ nuls n) = rstrip NUL s.
Proof.
  induction s as [|a s IH]; simpl.
  - apply rstrip_only_nuls.
  - by rewrite IH.
Qed.

(** X4. [parse_message] strips every trailing NUL, not one: a frame decodes
    to the same result with any number of delimiters after it. *)
Theorem trailing_delimiters_are_stripped s n :
  parse_message parseString (s +:+ nuls n) = parse_message parseString s.
Proof. unfold parse_message. by rewrite rstrip_nuls. Qed.

(** X5. The round trip for values of any type: what comes back for an
    attribute is [str] of what was given, a child given as [None] comes back
    as an empty map, and every child comes back as one map under its tag,
    for at most 5000 children and an XML library that reads back the
    document. *)
Theorem roundtrip_stringifies name (attributes : Dict.t pyval)
    (children : Dict.t (option (Dict.t pyval))) :
  Dict.wf attributes →
  Dict.wf children →
  Forall (fun kv => Dict.wf (default [] kv.2)) children →
  Z.of_nat (length children) ≤ MAX_CHILDREN →
  reads_back toxml parseString
    (construct_dom name (Some attributes) (Some children)) →
  parse_message parseString
    (construct_message toxml name (Some attributes) (Some children))
  = inr (name, render attributes,
         prod_map id (fun v => One (render (default [] v))) <$> children).
Proof.
  intros Ha Hk Hc Hlen Hxml. unfold parse_message, construct_message.
  rewrite Hxml. rewrite CodecFacts.construct_dom_wf by done.
  unfold parse_dom.
  replace (render_child <$> children)
    with ((fun kv : string * Dict.t string => Element kv.1 kv.2 [])
            <$> (prod_map id (fun v => render (default [] v)) <$> children)).
  - rewrite CodecFacts.parse_children_distinct.
    + unfold read_attributes.
      rewrite DictFacts.of_items_wf by (by apply DictFacts.wf_fmap).
      simpl. do 2 f_equal. rewrite <- list_fmap_compose.
      apply Forall_fmap_ext_1.
      eapply Forall_impl; [exact Hc|]. intros [k v] Hwf. simpl in *.
      unfold prod_map. simpl.
      rewrite DictFacts.of_items_wf; [done|]. by apply DictFacts.wf_fmap.
    + rewrite length_fmap, Z.add_0_l. exact Hlen.
    + simpl. by apply DictFacts.wf_fmap.
  - rewrite <- list_fmap_compose. apply list_fmap_ext. by intros ? [??].
Qed.

End CodecMoreTheorems.

Lemma roundtrip_stringifies_witness :
  parse_message Loopback.parseString
    (construct_message Loopback.toxml "GetPPDev"
       (Some [("seq", PInt 7); ("ppn", PInt 12)]) (Some [("e", None)]))
  = inr ("GetPPDev", [("seq", "7"); ("ppn", "12")], [("e", One [])]).
Proof.
  apply (roundtrip_stringifies Loopback.toxml Loopback.parseString "GetPPDev"
           [("seq", PInt 7); ("ppn", PInt 12)] [("e", None)]).
  - apply NoDup_cons. split; [|apply NoDup_singleton].
    intros H. apply list_elem_of_singleton in H. discriminate.
  - apply NoDup_singleton.
  - apply Forall_singleton. apply NoDup_nil_2.
  - unfold MAX_CHILDREN. simpl. lia.
  - apply LoopbackFacts.reads_back_all.
Defined.

(** * More of the session *)

Lemma append_inj_r (s a b : string) : s +:+ a = s +:+ b → a = b.
Proof. induction s as [|c s IH]; simpl; [done|]. intros [= H]. by apply IH. Qed.

(** X6. [n] calls of [_get_sequence] in a row return the [n] consecutive
    numbers from the counter on, so no two of them are equal, and leave the
    counter [n] higher. *)
Theorem sequence_numbers_are_consecutive n self :
  take_sequences n self
  = Returned (seqZ (_sequence self) (Z.of_nat n))
      (with_sequence (_sequence self + Z.of_nat n) self)
  ∧ NoDup (seqZ (_sequence self) (Z.of_nat n)).
Proof.
  split; [|apply NoDup_seqZ].
  revert self. induction n as [|n IH]; intros self.
  - simpl. unfold ret. f_equal. destruct self. unfold with_sequence. simpl.
    by rewrite Z.add_0_r.
  - cbn [take_sequences]. unfold bind at 1, _get_sequence at 1.
    cbn [bind_outcome]. unfold bind. rewrite IH. cbn [bind_outcome]. unfold ret.
    rewrite (seqZ_cons (_sequence self)) by lia.
    replace (Z.pred (Z.of_nat (S n))) with (Z.of_nat n) by lia.
    unfold with_sequence. cbn [_sequence _ssl_socket _send_q _recv_q _worker
      _dispatcher _terminate _events _modulus _exponent _logged_in omm_status
      omm_versions __dict__ calls].
    do 2 f_equal. lia.
Qed.

(** X7. Requests that carry different sequence numbers are awaited under
    different keys, whatever else they carry. *)
Theorem sequence_numbers_separate_keys message d1 d2 s1 s2 :
  Dict.get "seq" d1 = Some (PInt s1) →
  Dict.get "seq" d2 = Some (PInt s2) →
  s1 ≠ s2 →
  correlation_key message (Some d1) ≠ correlation_key message (Some d2).
Proof.
  unfold correlation_key. intros -> -> Hne. simpl. intros H.
  apply append_inj_r in H. by apply PyFacts.str_of_Z_inj in H.
Qed.

Lemma sequence_numbers_separate_keys_witness :
  correlation_key "GetPPDev" (Some [("seq", PInt 3); ("ppn", PInt 1)])
  ≠ correlation_key "GetPPDev" (Some [("seq", PInt 4); ("ppn", PInt 1)]).
Proof.
  apply (sequence_numbers_separate_keys "GetPPDev"
           [("seq", PInt 3); ("ppn", PInt 1)] [("seq", PInt 4); ("ppn", PInt 1)]
           3 4 eq_refl eq_refl).
  lia.
Defined.





(** ** Commands against a server *)

Section SessionMore.

Variable toxml : Node -> string.
Variable parseString : string -> exn + Node.
Variable encrypt_pin : pyval -> option string -> option string -> string.
Variable upper : string -> string.
Variable server : string -> string.

(** A request of a session at rest takes one exchange; the caller goes on
    with the decoded response, the frame written. *)
Lemma run_request {A} fuel message messagedata children (f : envelope -> M A) self env :
  let frame := framed (construct_message toxml message messagedata children) in
  idle self →
  server frame ≠ EmptyString →
  parse_message parseString (server frame) = inr env →
  env.1.1 ≠ "EventDECTSubscriptionMode" →
  dispatch_key env.1.1 env.1.2 = correlation_key message messagedata →
  run toxml parseString server (S fuel)
    (bind_outcome (_sendrequest toxml parseString message messagedata children self) f)
  = run toxml parseString server fuel
      (f env
         (with_socket (fun s => Socket (status s) (written s ++ [frame]) (inbound s))
            self)).
Proof.
  intros frame Hidle Hne Hparse Hname Hkey.
  pose proof (exchange_sendrequest toxml parseString server message messagedata
                children f self env Hidle Hne Hparse Hname Hkey) as Hex.
  assert (∃ key s k,
            bind_outcome
              (_sendrequest toxml parseString message messagedata children self) f
            = Waiting key s k) as (key & s & k & Heq).
  { rewrite _sendrequest_unfold. unfold _awaitresponse.
    destruct Hidle as [_ (_ & _ & _ & Hev)]. simpl_state. rewrite Hev, lookup_empty.
    cbn [bind_outcome]. eauto. }
  rewrite Heq in *. cbn [run]. by rewrite Hex.
Qed.

(** X10. [get_device] on a session at rest (connected, its threads
    running, nothing pending), answered by a [GetPPDevResp]
    under the sequence number of the request: no [pp] child gives [None]; one
    [pp] child gives the device when its [ppn] is [str] of the requested one
    and [None] otherwise, and [KeyError] when it has no [ppn]; several [pp]
    children raise [TypeError]. One frame has been written by then. *)
Theorem get_device_outcomes self ppn attributes children :
  let messagedata := Some [("seq", PInt (_sequence self)); ("ppn", ppn)] in
  let frame := framed (construct_message toxml "GetPPDev" messagedata None) in
  let self' :=
    with_socket (fun s => Socket (status s) (written s ++ [frame]) (inbound s))
      (with_sequence (_sequence self + 1) self) in
  idle self →
  server frame ≠ EmptyString →
  parse_message parseString (server frame) = inr ("GetPPDevResp", attributes, children) →
  Dict.get "seq" attributes = Some (str_of_Z (_sequence self)) →
  run toxml parseString server 1 (get_device toxml parseString ppn self)
  = Some match Dict.get "pp" children with
         | None => Returned None self'
         | Some (Many _) => Raised TypeError self'
         | Some (One pp) =>
             match Dict.get "ppn" pp with
             | None => Raised (KeyError "ppn") self'
             | Some v =>
                 if decide (v = py_str ppn) then Returned (Some (PPDev pp)) self'
                 else Returned None self'
             end
         end.
Proof.
  intros messagedata frame self' Hidle Hne Hparse Hseq.
  unfold get_device, bind at 1, _get_sequence. cbn [bind_outcome].
  unfold bind at 1.
  rewrite (run_request 0 "GetPPDev" messagedata None _ _
             ("GetPPDevResp", attributes, children));
    [| by unfold idle, quiet, turning in *; simpl_state | exact Hne | exact Hparse | done
     | unfold dispatch_key, correlation_key; simpl; by rewrite Hseq ].
  fold frame. fold self'.
  destruct (Dict.get "pp" children) as [[pp|l]|]; [| done..].
  unfold child_getitem, getitem. destruct (Dict.get "ppn" pp) as [v|]; [|done].
  unfold lift at 1, bind at 1, ret at 1. cbn [bind_outcome].
  destruct (decide (v = py_str ppn)); done.
Qed.


Lemma run_request_bind {A B} fuel message messagedata children
    (g : envelope -> M A) (h : A -> M B) self env :
  let frame := framed (construct_message toxml message messagedata children) in
  idle self →
  server frame ≠ EmptyString →
  parse_message parseString (server frame) = inr env →
  env.1.1 ≠ "EventDECTSubscriptionMode" →
  dispatch_key env.1.1 env.1.2 = correlation_key message messagedata →
  run toxml parseString server (S fuel)
    (bind_outcome
       (bind_outcome (_sendrequest toxml parseString message messagedata children self) g)
       h)
  = run toxml parseString server fuel (bind_outcome (g env (answered frame self)) h).
Proof.
  intros frame Hidle Hne Hparse Hname Hkey.
  pose proof (exchange_sendrequest toxml parseString server message messagedata
                children g self env Hidle Hne Hparse Hname Hkey) as Hex.
  apply (exchange_bind toxml parseString server _ _ h) in Hex.
  assert (∃ key s k,
            bind_outcome
              (bind_outcome
                 (_sendrequest toxml parseString message messagedata children self) g) h
            = Waiting key s k) as (key & s & k & Heq).
  { rewrite _sendrequest_unfold. unfold _awaitresponse.
    destruct Hidle as [_ (_ & _ & _ & Hev)]. simpl_state. rewrite Hev, lookup_empty.
    cbn [bind_outcome]. eauto. }
  rewrite Heq in *. cbn [run]. by rewrite Hex.
Qed.

(** X11. [attach_user_device] with positive ids on a session at rest
    (connected, its threads running, nothing pending), answered by a
    [SetPPResp] under the sequence number of the request:
    the result is [True] exactly when the one [pp] child of the response
    carries [str(uid)] as its [uid]; no [pp] child gives [False], a [pp]
    child without [uid] raises [KeyError], several raise [TypeError]. *)
Theorem attach_outcomes self uid ppn attributes children :
  let messagedata := Some [("seq", PInt (_sequence self))] in
  let frame :=
    framed (construct_message toxml "SetPP" messagedata
              (Some (attachment (PInt uid) (PInt ppn)))) in
  let self' := answered frame (with_sequence (_sequence self + 1) self) in
  0 < uid → 0 < ppn →
  idle self →
  server frame ≠ EmptyString →
  parse_message parseString (server frame) = inr ("SetPPResp", attributes, children) →
  Dict.get "seq" attributes = Some (str_of_Z (_sequence self)) →
  run toxml parseString server 1
    (attach_user_device toxml parseString (PInt uid) (PInt ppn) self)
  = Some match Dict.get "pp" children with
         | None => Returned false self'
         | Some (Many _) => Raised TypeError self'
         | Some (One pp) =>
             match Dict.get "uid" pp with
             | None => Raised (KeyError "uid") self'
             | Some v => Returned (bool_decide (v = str_of_Z uid)) self'
             end
         end.
Proof.
  intros messagedata frame self' Hu Hp Hidle Hne Hparse Hseq.
  unfold attach_user_device.
  assert (bad_ids (PInt uid) (PInt ppn) = false) as ->.
  { unfold bad_ids. simpl. apply orb_false_iff. rewrite !Z.leb_gt. done. }
  unfold bind at 1, _get_sequence. cbn [bind_outcome]. unfold bind at 1.
  rewrite (run_request 0 "SetPP" messagedata (Some (attachment (PInt uid) (PInt ppn)))
             _ _ ("SetPPResp", attributes, children));
    [| by unfold idle, quiet, turning in *; simpl_state | exact Hne | exact Hparse | done
     | unfold dispatch_key, correlation_key; simpl; by rewrite Hseq ].
  fold frame. fold (answered frame (with_sequence (_sequence self + 1) self)).
  fold self'.
  destruct (Dict.get "pp" children) as [[pp|l]|]; [| done..].
  unfold child_getitem, getitem. by destruct (Dict.get "uid" pp) as [v|].
Qed.

(** X12. [set_user_pin] on a session at rest (connected, its threads
    running, nothing pending), answered by a [SetPPUserResp]
    under the sequence number of the request: a response without children
    gives [False], one with a [user] child gives [True], and one with
    children but no [user] child raises [KeyError]. *)
Theorem set_user_pin_outcomes self uid pin attributes children :
  let messagedata := Some [("seq", PStr (str_of_Z (_sequence self)))] in
  let user :=
    [("user", Some [("uid", uid);
                    ("pin", PStr (encrypt_pin pin (_modulus self) (_exponent self)))])] in
  let frame := framed (construct_message toxml "SetPPUser" messagedata (Some user)) in
  let self' := answered frame (with_sequence (_sequence self + 1) self) in
  idle self →
  server frame ≠ EmptyString →
  parse_message parseString (server frame) = inr ("SetPPUserResp", attributes, children) →
  Dict.get "seq" attributes = Some (str_of_Z (_sequence self)) →
  run toxml parseString server 1 (set_user_pin toxml parseString encrypt_pin uid pin self)
  = Some (if decide (children = []) then Returned false self'
          else match Dict.get "user" children with
               | Some _ => Returned true self'
               | None => Raised (KeyError "user") self'
               end).
Proof.
  intros messagedata user frame self' Hidle Hne Hparse Hseq.
  unfold set_user_pin. step_body.
  rewrite (run_request 0 "SetPPUser" messagedata (Some user)
             _ _ ("SetPPUserResp", attributes, children));
    [| by unfold idle, quiet, turning in *; simpl_state | exact Hne | exact Hparse | done
     | unfold dispatch_key, correlation_key; simpl; by rewrite Hseq ].
  fold frame. fold (answered frame (with_sequence (_sequence self + 1) self)).
  fold self'.
  destruct children as [|c children]; [done|].
  rewrite decide_False by done. cbn [length Nat.ltb Nat.leb].
  unfold getitem. by destruct (Dict.get "user" (c :: children)).
Qed.

(** X13. [get_last_pp_dev_action] on a session at rest (connected, its
    threads running, nothing pending), answered by a
    [GetLastPPDevActionResp] under the sequence number of the request: one
    [pp] child with attributes gives the wrapper built from them at the
    clock reading of the call, whatever [ppn] it carries; no [pp] child or
    one without attributes gives [None]; several raise [AttributeError]. *)
Theorem last_action_outcomes self ppn now attributes children :
  let messagedata := Some [("seq", PInt (_sequence self)); ("ppn", ppn)] in
  let frame := framed (construct_message toxml "GetLastPPDevAction" messagedata None) in
  let self' := answered frame (with_sequence (_sequence self + 1) self) in
  idle self →
  server frame ≠ EmptyString →
  parse_message parseString (server frame)
  = inr ("GetLastPPDevActionResp", attributes, children) →
  Dict.get "seq" attributes = Some (str_of_Z (_sequence self)) →
  run toxml parseString server 1
    (get_last_pp_dev_action toxml parseString ppn now self)
  = Some match Dict.get "pp" children with
         | Some (One (kv :: a)) =>
             Returned
               (Some (LastPPAction.__init__
                        (Some (prod_map id (fun s => LastPPAction.VPy (PStr s))
                                 <$> kv :: a)) now)) self'
         | Some (Many (_ :: _)) => Raised AttributeError self'
         | _ => Returned None self'
         end.
Proof.
  intros messagedata frame self' Hidle Hne Hparse Hseq.
  unfold get_last_pp_dev_action, bind at 1, _get_sequence. cbn [bind_outcome].
  unfold bind at 1.
  rewrite (run_request 0 "GetLastPPDevAction" messagedata None _ _
             ("GetLastPPDevActionResp", attributes, children));
    [| by unfold idle, quiet, turning in *; simpl_state | exact Hne | exact Hparse | done
     | unfold dispatch_key, correlation_key; simpl; by rewrite Hseq ].
  fold frame. fold (answered frame (with_sequence (_sequence self + 1) self)).
  fold self'.
  by destruct (Dict.get "pp" children) as [[[|kv a]|[|m l]]|].
Qed.

Lemma login_credentials user password ommsync :
  (if decide (ommsync = PBool true)
   then Dict.set "UserDeviceSyncClient" (PStr "true")
          [("protocolVersion", PStr "45"); ("username", user); ("password", password)]
   else Dict.set "OMPClient" (PStr "1")
          [("protocolVersion", PStr "45"); ("username", user); ("password", password)])
  = credentials user password ommsync.
Proof. unfold credentials. by destruct (decide (ommsync = PBool true)). Qed.

(** [login] on a session on which it has not been called: the socket is
    connected, the threads are started, and the [Open] request is out. *)
Lemma login_starts {A} self user password ommsync (f : unit -> M A) :
  fresh self →
  ∃ g,
    login toxml parseString user password ommsync self
    = bind_outcome
        (_sendrequest toxml parseString "Open"
           (Some (credentials user password ommsync)) None
           (with_threads true true
              (with_socket (fun s => Socket Connected (written s) (inbound s)) self)))
        g
    ∧ idle (with_threads true true
              (with_socket (fun s => Socket Connected (written s) (inbound s)) self))
    ∧ ∀ r s,
        g r s
        = (let '(message, attributes, children) := r in
           pk <- lift (getitem "publicKey" children) ;;
           modulus <- lift (child_getitem "modulus" pk) ;;
           pk <- lift (getitem "publicKey" children) ;;
           exponent <- lift (child_getitem "exponent" pk) ;;
           modify (with_key (Some modulus) (Some exponent)) ;;
           modify (with_status attributes) ;;
           versions <- get_versions toxml parseString ;;
           modify (with_versions versions) ;;
           modify (with_logged_in true)) s.
Proof.
  intros (Hst & Hwk & Hdp & Htm & Hsq & Hrq & Hin & Hev).
  unfold login. rewrite login_credentials.
  destruct self as [[st wr inb] sq rq wk dp sn tm ev md ex lg sta vs di cl].
  simpl in Hst, Hwk, Hdp, Htm, Hsq, Hrq, Hin, Hev. subst st wk dp tm sq rq inb ev.
  eexists. split; [|split].
  - unfold bind at 1, connect at 1. simpl_state. cbn [bind_outcome].
    unfold bind at 1, start_worker at 1. simpl_state. cbn [bind_outcome].
    unfold bind at 1, start_dispatcher at 1. simpl_state. cbn [bind_outcome].
    unfold bind at 1. reflexivity.
  - by repeat split.
  - intros [[message attributes] children] s. reflexivity.
Qed.

(** X14. [login] on a session on which it has not been called (socket not
    connected, threads not started) takes two exchanges. The [Open] request
    carries the user name and the password as they were given and the
    client type chosen by [ommsync is True]; when the [OpenResp] has a
    [publicKey] child with [modulus] and [exponent] and the [GetVersions]
    request is answered, the session is logged in, holds the key, the
    attributes of the [OpenResp] as status and those of the
    [GetVersionsResp] as versions, and is at rest, connected and with its
    threads running, the two frames written. *)
Theorem login_opens_the_session self user password ommsync
    attributes children pk modulus exponent versions vchildren :
  let open_frame :=
    framed (construct_message toxml "Open"
              (Some (credentials user password ommsync)) None) in
  let versions_frame := framed (construct_message toxml "GetVersions" None None) in
  fresh self →
  server open_frame ≠ EmptyString →
  parse_message parseString (server open_frame) = inr ("OpenResp", attributes, children) →
  Dict.get "seq" attributes = None →
  Dict.get "publicKey" children = Some (One pk) →
  Dict.get "modulus" pk = Some modulus →
  Dict.get "exponent" pk = Some exponent →
  server versions_frame ≠ EmptyString →
  parse_message parseString (server versions_frame)
  = inr ("GetVersionsResp", versions, vchildren) →
  Dict.get "seq" versions = None →
  ∃ self',
    run toxml parseString server 2 (login toxml parseString user password ommsync self)
    = Some (Returned tt self')
    ∧ _logged_in self' = true
    ∧ _modulus self' = Some modulus ∧ _exponent self' = Some exponent
    ∧ omm_status self' = attributes ∧ omm_versions self' = versions
    ∧ written (_ssl_socket self')
      = written (_ssl_socket self) ++ [open_frame; versions_frame]
    ∧ connected (_ssl_socket self') = true
    ∧ idle self'.
Proof.
  intros open_frame versions_frame Hfresh Hne Hparse Hseq Hpk Hmod Hexp
    Hne' Hparse' Hseq'.
  destruct (login_starts (A:=unit) self user password ommsync (fun _ => ret tt) Hfresh)
    as (g & -> & Hidle & Hg).
  rewrite (run_request 1 "Open" (Some (credentials user password ommsync)) None
             _ _ ("OpenResp", attributes, children));
    [| exact Hidle | exact Hne | exact Hparse | done
     | unfold dispatch_key, correlation_key; simpl; rewrite Hseq;
       by destruct (decide (ommsync = PBool true)) ].
  fold open_frame. rewrite Hg.
  destruct Hfresh as (Hst & Hwk & Hdp & Htm & Hsq & Hrq & Hin & Hev).
  destruct self as [[st wr inb] sq rq wk dp sn tm ev md ex lg sta vs di cl].
  simpl in Hst, Hwk, Hdp, Htm, Hsq, Hrq, Hin, Hev. subst st wk dp tm sq rq inb ev.
  simpl_state.
  unfold getitem at 1 2. rewrite Hpk. cbn [lift].
  unfold bind at 1, ret at 1. cbn [bind_outcome child_getitem].
  unfold getitem. rewrite Hmod. cbn [lift].
  unfold bind at 1, ret at 1. cbn [bind_outcome].
  unfold bind at 1, ret at 1. cbn [bind_outcome child_getitem].
  unfold getitem. rewrite Hexp. cbn [lift].
  unfold bind at 1, ret at 1. cbn [bind_outcome].
  unfold bind at 1, modify at 1. cbn [bind_outcome].
  unfold bind at 1, modify at 1. cbn [bind_outcome].
  unfold bind at 1, get_versions, bind at 1. simpl_state.
  rewrite (run_request_bind 0 "GetVersions" None None _ _ _
             ("GetVersionsResp", versions, vchildren));
    [| by repeat split | exact Hne' | exact Hparse' | done
     | unfold dispatch_key, correlation_key; simpl; by rewrite Hseq' ].
  fold versions_frame. unfold answered. step_body. simpl_state.
  eexists. split; [reflexivity|]. simpl_state.
  rewrite <- app_assoc. by repeat split.
Qed.

(** X15. [login], on a session on which it has not been called, against a
    server whose [OpenResp] has no [publicKey] child raises [KeyError] after
    one exchange: the session is connected and its threads run, and it is
    not logged in and holds no key. *)
Theorem login_without_public_key self user password ommsync attributes children :
  let open_frame :=
    framed (construct_message toxml "Open"
              (Some (credentials user password ommsync)) None) in
  fresh self →
  _logged_in self = false →
  server open_frame ≠ EmptyString →
  parse_message parseString (server open_frame) = inr ("OpenResp", attributes, children) →
  Dict.get "seq" attributes = None →
  Dict.get "publicKey" children = None →
  ∃ self',
    run toxml parseString server 1 (login toxml parseString user password ommsync self)
    = Some (Raised (KeyError "publicKey") self')
    ∧ _logged_in self' = false
    ∧ _modulus self' = _modulus self ∧ _exponent self' = _exponent self
    ∧ connected (_ssl_socket self') = true
    ∧ _worker self' = true ∧ _dispatcher self' = true.
Proof.
  intros open_frame Hfresh Hlog Hne Hparse Hseq Hpk.
  destruct (login_starts (A:=unit) self user password ommsync (fun _ => ret tt) Hfresh)
    as (g & -> & Hidle & Hg).
  rewrite (run_request 0 "Open" (Some (credentials user password ommsync)) None
             _ _ ("OpenResp", attributes, children));
    [| exact Hidle | exact Hne | exact Hparse | done
     | unfold dispatch_key, correlation_key; simpl; rewrite Hseq;
       by destruct (decide (ommsync = PBool true)) ].
  fold open_frame. rewrite Hg.
  destruct Hfresh as (Hst & Hwk & Hdp & Htm & Hsq & Hrq & Hin & Hev).
  destruct self as [[st wr inb] sq rq wk dp sn tm ev md ex lg sta vs di cl].
  simpl in Hst, Hwk, Hdp, Htm, Hsq, Hrq, Hin, Hev, Hlog. subst st wk dp tm sq rq inb ev lg.
  simpl_state.
  unfold getitem at 1. rewrite Hpk. cbn [lift].
  unfold bind at 1, raise at 1. cbn [bind_outcome run].
  eexists. split; [reflexivity|]. by simpl_state.
Qed.


(** ** Validation, slots and the dispatcher *)

(** X16. [set_subscription] checks its arguments before anything is
    queued, [upper] being [str.upper]: no mode, a mode whose [upper()] is
    none of [OFF], [WILDCARD] and [CONFIGURED], and the wildcard mode without
    a timeout return [False] on the unchanged session. A valid mode is sent
    under its canonical spelling, logged in or not; the timeout is sent for
    the wildcard mode only. *)
Theorem set_subscription_validates self mode timeout :
  set_subscription toxml parseString upper None timeout self = Returned false self
  ∧ (Dict.get (upper mode) modes = None →
     set_subscription toxml parseString upper (Some mode) timeout self = Returned false self)
  ∧ (upper mode = "WILDCARD" →
     set_subscription toxml parseString upper (Some mode) PNone self = Returned false self)
  ∧ (upper mode = "WILDCARD" → timeout ≠ PNone →
     outbound (set_subscription toxml parseString upper (Some mode) timeout self)
     = _send_q self
       ++ [toxml (Element "SetDECTSubscriptionMode"
                    [("mode", "Wildcard"); ("timeout", py_str timeout)] [])])
  ∧ (∀ m, Dict.get (upper mode) modes = Some m → upper mode ≠ "WILDCARD" →
     outbound (set_subscription toxml parseString upper (Some mode) timeout self)
     = _send_q self ++ [toxml (Element "SetDECTSubscriptionMode" [("mode", m)] [])]).
Proof.
  split; [done|]. split; [|split; [|split]].
  - intros Hno. unfold set_subscription. by rewrite Hno.
  - intros Hw. unfold set_subscription. by rewrite Hw.
  - intros Hw Ht. unfold set_subscription. rewrite Hw.
    replace (Dict.get "WILDCARD" modes) with (Some "Wildcard") by done.
    cbv beta iota. rewrite decide_True by done. rewrite decide_False by done.
    unfold bind. by rewrite _sendrequest_outbound.
  - intros m Hm Hw. unfold set_subscription. rewrite Hm. cbv beta iota.
    rewrite decide_False by done. unfold bind.
    by rewrite _sendrequest_outbound.
Qed.

(** The event name that [name.split("_")[1]] yields for a declared slot. *)
Lemma declared_event_name name :
  name ∈ __events__ →
  ∃ event, name = "on_" +:+ event ∧ split "_" name !! 1%nat = Some event.
Proof.
  unfold __events__. intros Hin.
  apply elem_of_cons in Hin as [->|Hin];
    [exists "RFPState"; split; [reflexivity | vm_compute; reflexivity]|].
  apply elem_of_cons in Hin as [->|Hin];
    [exists "HealthState"; split; [reflexivity | vm_compute; reflexivity]|].
  apply elem_of_cons in Hin as [->|Hin];
    [exists "DECTSubscriptionMode"; split; [reflexivity | vm_compute; reflexivity]|].
  apply elem_of_cons in Hin as [->|Hin];
    [exists "PPDevCnf"; split; [reflexivity | vm_compute; reflexivity]|].
  by apply elem_of_nil in Hin.
Qed.

(** X17. Reading the slot of a declared event. A slot that exists is
    returned as it is, without a request. The first read subscribes to the
    event at the server, under the name that follows [on_]: not logged in,
    it raises and no slot is created; logged in, the [Subscribe] request is
    queued, and the slot is not there before the response has come. *)
Theorem event_slot_subscribes_on_first_read self name :
  name ∈ __events__ →
  (∀ targets, __dict__ self !! name = Some targets →
     __getattr__ toxml parseString name self = Returned targets self)
  ∧ (__dict__ self !! name = None → _logged_in self = false →
     __getattr__ toxml parseString name self
     = Raised (Exception "OMMClient not logged in") self)
  ∧ (__dict__ self !! name = None → _logged_in self = true →
     ∃ event,
       name = "on_" +:+ event
       ∧ outbound (__getattr__ toxml parseString name self)
         = _send_q self
           ++ [construct_message toxml "Subscribe" (Some [])
                 (Some [("e", Some [("cmd", PStr "On"); ("eventType", PStr event)])])]
       ∧ __dict__ (state_of (__getattr__ toxml parseString name self)) !! name = None).
Proof.
  intros Hin. destruct (declared_event_name name Hin) as (event & Hname & Hsplit).
  split; [|split].
  - intros targets Hslot. unfold __getattr__. step_body. by rewrite Hslot.
  - intros Hslot Hlog. unfold __getattr__. step_body. rewrite Hslot.
    rewrite decide_True by done. rewrite Hsplit. cbn [lift]. step_body.
    unfold subscribe_event, bind, _ensure_login. by rewrite Hlog.
  - intros Hslot Hlog. exists event. split; [exact Hname|].
    unfold __getattr__. step_body. rewrite Hslot.
    rewrite decide_True by done. rewrite Hsplit. cbn [lift]. step_body.
    unfold subscribe_event, bind, _ensure_login. rewrite Hlog.
    cbn [bind_outcome]. rewrite _sendrequest_unfold. unfold _awaitresponse, outbound.
    simpl_state.
    destruct (_events self !! _); cbn [bind_outcome state_of]; by simpl_state.
Qed.

(** X18. A subscription-mode event that arrives while its slot does not
    exist makes the dispatcher read the slot: not logged in, the dispatch
    step raises; logged in, it queues a [Subscribe] request and suspends on
    the waiter for [SubscribeResp], no handler having been called. The frame
    is off the receive queue in both cases. *)
Theorem subscription_event_without_slot self item rest attributes children :
  _recv_q self = item :: rest →
  parse_message parseString item
  = inr ("EventDECTSubscriptionMode", attributes, children) →
  __dict__ self !! "on_DECTSubscriptionMode" = None →
  (_logged_in self = false →
   _dispatch_iter toxml parseString self
   = Raised (Exception "OMMClient not logged in") (with_recv_q (fun _ => rest) self))
  ∧ (_logged_in self = true → _events self !! "SubscribeResp" = None →
     ∃ s k,
       _dispatch_iter toxml parseString self = Waiting "SubscribeResp" s k
       ∧ _send_q s
         = _send_q self
           ++ [construct_message toxml "Subscribe" (Some [])
                 (Some [("e", Some [("cmd", PStr "On");
                                    ("eventType", PStr "DECTSubscriptionMode")])])]
       ∧ _recv_q s = rest
       ∧ calls s = calls self).
Proof.
  intros Hq Hparse Hslot. split.
  - intros Hlog. unfold _dispatch_iter. rewrite Hq, Hparse.
    rewrite decide_True by done. unfold __getattr__. step_body. rewrite Hslot.
    rewrite decide_True by (unfold __events__; do 2 right; left).
    replace (split "_" "on_DECTSubscriptionMode" !! 1%nat)
      with (Some "DECTSubscriptionMode") by (vm_compute; reflexivity).
    cbn [lift]. step_body.
    unfold subscribe_event, bind, _ensure_login. simpl_state. by rewrite Hlog.
  - intros Hlog Hfree. unfold _dispatch_iter. rewrite Hq, Hparse.
    rewrite decide_True by done. unfold __getattr__. step_body. rewrite Hslot.
    rewrite decide_True by (unfold __events__; do 2 right; left).
    replace (split "_" "on_DECTSubscriptionMode" !! 1%nat)
      with (Some "DECTSubscriptionMode") by (vm_compute; reflexivity).
    cbn [lift]. step_body.
    unfold subscribe_event, bind, _ensure_login. simpl_state. rewrite Hlog.
    cbn [bind_outcome]. rewrite _sendrequest_unfold. unfold _awaitresponse.
    simpl_state.
    replace (correlation_key "Subscribe" (Some [])) with "SubscribeResp" by done.
    rewrite Hfree. cbn [bind_outcome]. do 2 eexists. split; [reflexivity|]. done.
Qed.

(** X19. A response reaches the caller that awaits it. A call that awaits
    [key] registers a waiter and suspends; it does not continue before a
    response has come. When the dispatcher takes a frame whose key is [key]
    off the receive queue, it returns, the waiters under other keys are as
    they were, and the caller continues with the decoded frame, its waiter
    removed. *)
Theorem response_reaches_its_caller self key :
  _events self !! key = None →
  let s := with_events (insert key (Waiter false None)) self in
  ∃ k,
    _awaitresponse parseString key self = Waiting key s k
    ∧ resume (Waiting key s k) s = None
    ∧ ∀ later item rest env,
        is_Some (_events later !! key) →
        _recv_q later = item :: rest →
        parse_message parseString item = inr env →
        env.1.1 ≠ "EventDECTSubscriptionMode" →
        dispatch_key env.1.1 env.1.2 = key →
        ∃ s',
          _dispatch_iter toxml parseString later = Returned tt s'
          ∧ _recv_q s' = rest
          ∧ (∀ key', key' ≠ key → _events s' !! key' = _events later !! key')
          ∧ resume (Waiting key s k) s'
            = Some (Returned env (with_events (delete key) s')).
Proof.
  intros Hfree s. unfold _awaitresponse. rewrite Hfree.
  eexists. split; [reflexivity|]. split.
  - unfold resume, s. simpl_state. by rewrite lookup_insert_eq.
  - intros later item rest [[name attrs] ch] [w Hw] Hq Hparse Hname Hkey.
    simpl in Hname, Hkey. subst key.
    eexists. split; [by eapply matched_response_is_stored|]. split; [done|]. split.
    + intros key' Hne. simpl_state. by rewrite lookup_insert_ne.
    + unfold resume. simpl_state. rewrite !lookup_insert_eq. simpl_state.
      by rewrite Hparse.
Qed.

(** X20. The nine commands that call [_ensure_login] are refused on a
    session that is not logged in: they raise before a sequence number is
    taken and before anything is queued or awaited, the session being left
    as it was. *)
Theorem gated_commands_are_refused self :
  _logged_in self = false →
  let refused {A} (c : M A) :=
    c self = Raised (Exception "OMMClient not logged in") self in
  (∀ uid, refused (get_account toxml parseString uid))
  ∧ (∀ e, refused (subscribe_event toxml parseString e))
  ∧ refused (get_sari toxml parseString)
  ∧ refused (get_systemname toxml parseString)
  ∧ refused (get_limits toxml parseString)
  ∧ refused (ping toxml parseString)
  ∧ (∀ uid, refused (delete_user toxml parseString uid))
  ∧ (∀ ppid, refused (delete_device toxml parseString ppid))
  ∧ (∀ ppn, refused (get_device_state toxml parseString ppn)).
Proof. intros Hl. exact (guarded_commands_raise toxml parseString self Hl). Qed.


End SessionMore.

(** * More of the entity wrapper *)

(** X22. Reading a fresh [LastPPAction] by a name that is not of the form
    [__x__]: an attribute of the response is read back; [localTimeStamp] is
    the clock reading of the construction, whatever the response holds
    under that name; a name of the class body that the response does not
    hold reads what the class binds it to, [None] for the fields, the
    method for [commit] and the like, the lock for [_changelock]; any other
    name raises [KeyError]. *)
Theorem fresh_action_reads attributes now :
  Dict.wf attributes →
  (∀ k v, Dict.get k attributes = Some v → k ≠ "localTimeStamp" →
     LastPPAction.dunder k = false →
     LastPPAction.getattr k (LastPPAction.__init__ (Some attributes) now) = inr v)
  ∧ LastPPAction.getattr "localTimeStamp" (LastPPAction.__init__ (Some attributes) now)
    = inr (LastPPAction.VTime now)
  ∧ (∀ k v, Dict.get k LastPPAction.class_body = Some v →
     Dict.get k attributes = None →
     k ∉ ["localTimeStamp"; "_ommclient"; "_changes"] →
     LastPPAction.getattr k (LastPPAction.__init__ (Some attributes) now) = inr v)
  ∧ (∀ k, Dict.get k LastPPAction.class_body = None →
     Dict.get k attributes = None →
     LastPPAction.dunder k = false →
     LastPPAction.getattr k (LastPPAction.__init__ (Some attributes) now)
     = inl (KeyError k)).
Proof.
  intros Hwf. unfold LastPPAction.getattr, LastPPAction.__init__, LastPPAction.t.
  split; [|split; [|split]].
  - intros k v Hget Hne _. rewrite lookup_insert_ne by done.
    by rewrite (LastPPActionFacts.init_from_attributes_last attributes _ k v).
  - by rewrite lookup_insert_eq.
  - intros k v Hclass Hget Hnot.
    assert (k ≠ "localTimeStamp" ∧ k ≠ "_ommclient" ∧ k ≠ "_changes") as (H1 & H2 & H3).
    { repeat split; intros ->; apply Hnot; by repeat constructor. }
    rewrite lookup_insert_ne by done.
    rewrite LastPPActionFacts.init_from_attributes_fresh by done.
    unfold LastPPAction.t. rewrite !lookup_insert_ne by done. rewrite lookup_empty.
    by rewrite Hclass.
  - intros k Hclass Hget _.
    assert (k ≠ "localTimeStamp" ∧ k ≠ "_ommclient" ∧ k ≠ "_changes") as (H1 & H2 & H3).
    { repeat split; intros ->; discriminate Hclass. }
    rewrite lookup_insert_ne by done.
    rewrite LastPPActionFacts.init_from_attributes_fresh by done.
    unfold LastPPAction.t. rewrite !lookup_insert_ne by done. rewrite lookup_empty.
    by rewrite Hclass.
Qed.

(** X23. [uid] can be assigned once: on a wrapper that has no [uid], whose
    lock is the one of the class and whose changes are a dictionary, the
    assignment succeeds, is read back and is recorded as a change; from
    then on every assignment to [uid] raises, also one of the same value. *)
Theorem uid_is_assigned_once (self : LastPPAction.t) changes v :
  self !! "uid" = None →
  self !! "_changelock" = None →
  self !! "_changes" = Some (LastPPAction.VDict changes) →
  ∃ self',
    LastPPAction.__setattr__ "uid" v self = inr self'
    ∧ LastPPAction.getattr "uid" self' = inr v
    ∧ LastPPAction.getattr "_changes" self'
      = inr (LastPPAction.VDict (Dict.set "uid" v changes))
    ∧ ∀ v', LastPPAction.__setattr__ "uid" v' self'
            = inl (Exception "Cannot change uid !").
Proof.
  intros Hno Hlock Hch.
  destruct (LastPPActionFacts.setattr_other self "uid" v changes) as [Hset Hget];
    [by right | done | done |].
  eexists. split; [exact Hset|]. split; [exact Hget|]. split.
  - unfold LastPPAction.getattr, LastPPAction.t.
    rewrite lookup_insert_ne by done. by rewrite lookup_insert_eq.
  - intros v'. apply (LastPPActionFacts.uid_is_immutable _ v).
    unfold LastPPAction.t. apply lookup_insert_eq.
Qed.

(** X24. [get_attributes] keeps the items whose name holds an underscore:
    on a wrapper built from a response whose attribute names hold none, as
    [ppn], [trType], [rfpId] and [relTime] do, it returns the session handle
    and the dictionary of changes, and none of the attributes of the
    response nor the time stamp. *)
Theorem get_attributes_returns_private_fields attributes now :
  Forall (fun kv => contains "_" kv.1 = false) attributes →
  get_attributes (LastPPAction.__init__ (Some attributes) now)
  = {[ "_ommclient" := LastPPAction.VClient; "_changes" := LastPPAction.VDict [] ]}.
Proof.
  intros Hnames. unfold get_attributes, LastPPAction.__init__.
  apply map_eq. intros k. apply option_eq. intros x.
  rewrite map_lookup_filter_Some. cbn [fst].
  destruct (contains "_" k) eqn:Hk.
  - assert (Dict.get k attributes = None) as Hget.
    { apply DictFacts.get_None. unfold Dict.keys. intros Hin.
      apply list_elem_of_fmap in Hin as ([k' v'] & -> & Hin).
      rewrite Forall_forall in Hnames. specialize (Hnames _ Hin).
      simpl in *. congruence. }
    assert (k ≠ "localTimeStamp") as Hne by (by intros ->).
    unfold LastPPAction.t. rewrite lookup_insert_ne by done.
    rewrite LastPPActionFacts.init_from_attributes_fresh by done.
    unfold LastPPAction.t.
    destruct (decide (k = "_changes")) as [->|Hc].
    + rewrite lookup_insert_eq.
      rewrite lookup_insert_ne by done. rewrite lookup_singleton_eq. split; [by intros [? ?] | intros ?; by split].
    + rewrite (lookup_insert_ne _ "_changes") by done.
      destruct (decide (k = "_ommclient")) as [->|Ho].
      * rewrite !lookup_insert_eq. split; [by intros [? ?] | intros ?; by split].
      * rewrite !lookup_insert_ne by done.
        rewrite lookup_empty, lookup_singleton_ne by done.
        split; [by intros [? ?] | intros ?; by split].
  - assert (k ≠ "_ommclient" ∧ k ≠ "_changes") as [Ho Hc]
      by (split; by intros ->).
    rewrite (lookup_insert_ne _ "_ommclient") by done.
    rewrite lookup_singleton_ne by done.
    split; [by intros [? ?] | intros ?; by split].
Qed.

(** * The statements on concrete sessions, continued *)

Module AnswersFacts.

Lemma fold_appendChild_tag (l : Dict.t (option (Dict.t pyval))) name a c :
  ∃ c',
    fold_left
      (fun root kv =>
         let new_child :=
           match kv.2 with
           | Some val =>
               fold_left (fun c av => setAttribute av.1 (py_str av.2) c)
                 val (Element kv.1 [] [])
           | None => Element kv.1 [] []
           end in
         appendChild new_child root) l (Element name a c)
    = Element name a c'.
Proof.
  revert c. induction l as [|kv l IH]; intros c; simpl; [by eexists|]. apply IH.
Qed.

(** The document of a request is an element named for the request. *)
Lemma construct_dom_tag name messagedata children :
  ∃ a c, construct_dom name messagedata children = Element name a c.
Proof.
  unfold construct_dom. rewrite CodecFacts.fold_setAttribute.
  destruct children as [l|]; [|by do 2 eexists].
  eexists. apply fold_appendChild_tag.
Qed.

Lemma answers_frame table name messagedata children doc :
  Dict.get name table = Some doc →
  answers table (framed (construct_message Loopback.toxml name messagedata children))
  = Loopback.toxml doc.
Proof.
  intros Hget. unfold answers, framed, construct_message.
  rewrite LoopbackFacts.parse_frame.
  destruct (construct_dom_tag name messagedata children) as (a & c & ->).
  by rewrite Hget.
Qed.

Lemma answers_nonempty table name messagedata children doc :
  Dict.get name table = Some doc →
  answers table (framed (construct_message Loopback.toxml name messagedata children))
  ≠ EmptyString.
Proof.
  intros Hget. rewrite (answers_frame _ _ _ _ doc Hget).
  apply LoopbackFacts.toxml_nonempty.
Qed.

Lemma answers_parses table name messagedata children doc env :
  Dict.get name table = Some doc →
  parse_dom doc = inr env →
  parse_message Loopback.parseString
    (answers table (framed (construct_message Loopback.toxml name messagedata children)))
  = inr env.
Proof.
  intros Hget Hdoc. rewrite (answers_frame _ _ _ _ doc Hget).
  unfold parse_message. by rewrite LoopbackFacts.parse_toxml.
Qed.

Lemma framed_parses doc env :
  parse_dom doc = inr env →
  parse_message Loopback.parseString (framed (Loopback.toxml doc)) = inr env.
Proof.
  intros Hdoc. unfold parse_message, framed. by rewrite LoopbackFacts.parse_frame.
Qed.

End AnswersFacts.

Lemma get_device_outcomes_witness :
  run Loopback.toxml Loopback.parseString (answers [("GetPPDev", device_doc)]) 1
    (get_device Loopback.toxml Loopback.parseString (PInt 1) running)
  = Some (Returned (Some (PPDev [("ppn", "1"); ("uid", "2")]))
            (answered
               (framed (construct_message Loopback.toxml "GetPPDev"
                          (Some [("seq", PInt 0); ("ppn", PInt 1)]) None))
               (with_sequence 1 running))).
Proof.
  apply (get_device_outcomes Loopback.toxml Loopback.parseString
           (answers [("GetPPDev", device_doc)]) running (PInt 1)
           [("seq", "0")] [("pp", One [("ppn", "1"); ("uid", "2")])]).
  - apply idle_running.
  - by apply AnswersFacts.answers_nonempty with device_doc.
  - by apply AnswersFacts.answers_parses with device_doc.
  - reflexivity.
Defined.

Lemma attach_outcomes_witness :
  run Loopback.toxml Loopback.parseString (answers [("SetPP", attached_doc)]) 1
    (attach_user_device Loopback.toxml Loopback.parseString (PInt 2) (PInt 3) running)
  = Some (Returned true
            (answered
               (framed (construct_message Loopback.toxml "SetPP" (Some [("seq", PInt 0)])
                          (Some (attachment (PInt 2) (PInt 3)))))
               (with_sequence 1 running))).
Proof.
  apply (attach_outcomes Loopback.toxml Loopback.parseString
           (answers [("SetPP", attached_doc)]) running 2 3
           [("seq", "0")]
           [("pp", One [("ppn", "3"); ("uid", "2")]);
            ("user", One [("uid", "2"); ("ppn", "3")])]).
  - lia.
  - lia.
  - apply idle_running.
  - by apply AnswersFacts.answers_nonempty with attached_doc.
  - by apply AnswersFacts.answers_parses with attached_doc.
  - reflexivity.
Defined.

Lemma set_user_pin_outcomes_witness :
  run Loopback.toxml Loopback.parseString (answers [("SetPPUser", pin_doc)]) 1
    (set_user_pin Loopback.toxml Loopback.parseString (fun _ _ _ => "9f3a")
       (PInt 2) (PStr "1234") running)
  = Some (Returned true
            (answered
               (framed (construct_message Loopback.toxml "SetPPUser"
                          (Some [("seq", PStr "0")])
                          (Some [("user", Some [("uid", PInt 2); ("pin", PStr "9f3a")])])))
               (with_sequence 1 running))).
Proof.
  apply (set_user_pin_outcomes Loopback.toxml Loopback.parseString (fun _ _ _ => "9f3a")
           (answers [("SetPPUser", pin_doc)]) running (PInt 2) (PStr "1234")
           [("seq", "0")] [("user", One [("uid", "2")])]).
  - apply idle_running.
  - by apply AnswersFacts.answers_nonempty with pin_doc.
  - by apply AnswersFacts.answers_parses with pin_doc.
  - reflexivity.
Defined.

Lemma login_opens_the_session_witness :
  ∃ self',
    run Loopback.toxml Loopback.parseString
      (answers [("Open", open_doc); ("GetVersions", versions_doc)]) 2
      (login Loopback.toxml Loopback.parseString (PStr "omm") (PStr "secret")
         (PBool false) __init__)
    = Some (Returned tt self')
    ∧ _logged_in self' = true
    ∧ _modulus self' = Some "C0FFEE" ∧ _exponent self' = Some "10001"
    ∧ omm_status self' = [("protocolVersion", "45")]
    ∧ omm_versions self' = [("GetPPDev", "45"); ("Ping", "1")]
    ∧ written (_ssl_socket self')
      = written (_ssl_socket __init__)
        ++ [framed (construct_message Loopback.toxml "Open"
                      (Some (credentials (PStr "omm") (PStr "secret") (PBool false)))
                      None);
            framed (construct_message Loopback.toxml "GetVersions" None None)]
    ∧ connected (_ssl_socket self') = true
    ∧ idle self'.
Proof.
  apply (login_opens_the_session Loopback.toxml Loopback.parseString
           (answers [("Open", open_doc); ("GetVersions", versions_doc)]) __init__
           (PStr "omm") (PStr "secret") (PBool false)
           [("protocolVersion", "45")]
           [("publicKey", One [("modulus", "C0FFEE"); ("exponent", "10001")])]
           [("modulus", "C0FFEE"); ("exponent", "10001")] "C0FFEE" "10001"
           [("GetPPDev", "45"); ("Ping", "1")] []).
  - by repeat split.
  - by apply AnswersFacts.answers_nonempty with open_doc.
  - by apply AnswersFacts.answers_parses with open_doc.
  - reflexivity.
  - reflexivity.
  - reflexivity.
  - reflexivity.
  - by apply AnswersFacts.answers_nonempty with versions_doc.
  - by apply AnswersFacts.answers_parses with versions_doc.
  - reflexivity.
Defined.

Lemma login_without_public_key_witness :
  ∃ self',
    run Loopback.toxml Loopback.parseString (answers [("Open", refused_doc)]) 1
      (login Loopback.toxml Loopback.parseString (PStr "omm") (PStr "wrong")
         (PBool true) __init__)
    = Some (Raised (KeyError "publicKey") self')
    ∧ _logged_in self' = false
    ∧ _modulus self' = _modulus __init__ ∧ _exponent self' = _exponent __init__
    ∧ connected (_ssl_socket self') = true
    ∧ _worker self' = true ∧ _dispatcher self' = true.
Proof.
  apply (login_without_public_key Loopback.toxml Loopback.parseString
           (answers [("Open", refused_doc)]) __init__
           (PStr "omm") (PStr "wrong") (PBool true) [("errCode", "EAuth")] []).
  - by repeat split.
  - reflexivity.
  - by apply AnswersFacts.answers_nonempty with refused_doc.
  - by apply AnswersFacts.answers_parses with refused_doc.
  - reflexivity.
  - reflexivity.
Defined.


Lemma set_subscription_validates_witness :
  set_subscription Loopback.toxml Loopback.parseString ascii_upper (Some "auto") (PInt 60) __init__
  = Returned false __init__
  ∧ outbound (set_subscription Loopback.toxml Loopback.parseString ascii_upper (Some "wildcard")
                (PInt 60) __init__)
    = _send_q __init__
      ++ [Loopback.toxml (Element "SetDECTSubscriptionMode"
                            [("mode", "Wildcard"); ("timeout", py_str (PInt 60))] [])].
Proof.
  split.
  - destruct (set_subscription_validates Loopback.toxml Loopback.parseString ascii_upper
                __init__ "auto" (PInt 60)) as (_ & H & _).
    apply H. reflexivity.
  - destruct (set_subscription_validates Loopback.toxml Loopback.parseString ascii_upper
                __init__ "wildcard" (PInt 60)) as (_ & _ & _ & H & _).
    apply H; [reflexivity | discriminate].
Defined.

Lemma event_slot_subscribes_on_first_read_witness :
  ∃ event,
    "on_HealthState" = "on_" +:+ event
    ∧ outbound (__getattr__ Loopback.toxml Loopback.parseString "on_HealthState" running)
      = _send_q running
        ++ [construct_message Loopback.toxml "Subscribe" (Some [])
              (Some [("e", Some [("cmd", PStr "On"); ("eventType", PStr event)])])]
    ∧ __dict__ (state_of (__getattr__ Loopback.toxml Loopback.parseString
                            "on_HealthState" running))
      !! "on_HealthState" = None.
Proof.
  assert ("on_HealthState" ∈ __events__) as Hin
    by (apply list_elem_of_further, list_elem_of_here).
  destruct (event_slot_subscribes_on_first_read Loopback.toxml Loopback.parseString
              running "on_HealthState" Hin) as (_ & _ & H).
  apply H; [apply lookup_empty | reflexivity].
Defined.

Lemma mode_frame_parses :
  parse_message Loopback.parseString mode_frame
  = inr ("EventDECTSubscriptionMode", [("mode", "Off")], []).
Proof. by apply AnswersFacts.framed_parses. Qed.

Lemma subscription_event_without_slot_witness :
  _dispatch_iter Loopback.toxml Loopback.parseString notified
  = Raised (Exception "OMMClient not logged in") (with_recv_q (fun _ => []) notified).
Proof.
  destruct (subscription_event_without_slot Loopback.toxml Loopback.parseString
              notified mode_frame [] [("mode", "Off")] [] eq_refl mode_frame_parses
              (lookup_empty _)) as [H _].
  apply H. reflexivity.
Defined.

Lemma pong_frame_parses :
  parse_message Loopback.parseString pong_frame = inr ("PingResp", [], []).
Proof. by apply AnswersFacts.framed_parses. Qed.

Lemma response_reaches_its_caller_witness :
  ∃ k,
    _awaitresponse Loopback.parseString "PingResp" __init__ = Waiting "PingResp" pinging k
    ∧ resume (Waiting "PingResp" pinging k) pinging = None
    ∧ ∃ s',
        _dispatch_iter Loopback.toxml Loopback.parseString
          (with_recv_q (fun _ => [pong_frame]) pinging)
        = Returned tt s'
        ∧ resume (Waiting "PingResp" pinging k) s'
          = Some (Returned ("PingResp", [], []) (with_events (delete "PingResp") s')).
Proof.
  destruct (response_reaches_its_caller Loopback.toxml Loopback.parseString
              __init__ "PingResp" (lookup_empty _)) as (k & Hawait & Hnot & Hlater).
  exists k. split; [exact Hawait|]. split; [exact Hnot|].
  destruct (Hlater (with_recv_q (fun _ => [pong_frame]) pinging) pong_frame []
              ("PingResp", [], [])) as (s' & Hstep & _ & _ & Hres).
  - eexists. apply lookup_insert_eq.
  - reflexivity.
  - exact pong_frame_parses.
  - discriminate.
  - reflexivity.
  - exists s'. by split.
Defined.

Lemma gated_commands_are_refused_witness :
  ping Loopback.toxml Loopback.parseString __init__
  = Raised (Exception "OMMClient not logged in") __init__
  ∧ delete_user Loopback.toxml Loopback.parseString (PInt 4) __init__
    = Raised (Exception "OMMClient not logged in") __init__.
Proof.
  destruct (gated_commands_are_refused Loopback.toxml Loopback.parseString
              __init__ eq_refl) as (_ & _ & _ & _ & _ & Hping & Hdel & _).
  split; [exact Hping | exact (Hdel (PInt 4))].
Defined.


Lemma fresh_action_reads_witness :
  LastPPAction.getattr "trType"
    (LastPPAction.__init__
       (Some [("ppn", LastPPAction.VPy (PStr "5"));
              ("trType", LastPPAction.VPy (PStr "None"))]) 1700000000)
  = inr (LastPPAction.VPy (PStr "None"))
  ∧ LastPPAction.getattr "relTime"
      (LastPPAction.__init__
         (Some [("ppn", LastPPAction.VPy (PStr "5"));
                ("trType", LastPPAction.VPy (PStr "None"))]) 1700000000)
    = inr (LastPPAction.VPy PNone)
  ∧ LastPPAction.getattr "commit"
      (LastPPAction.__init__
         (Some [("ppn", LastPPAction.VPy (PStr "5"));
                ("trType", LastPPAction.VPy (PStr "None"))]) 1700000000)
    = inr (LastPPAction.VMethod "commit")
  ∧ LastPPAction.getattr "ipei"
      (LastPPAction.__init__
         (Some [("ppn", LastPPAction.VPy (PStr "5"));
                ("trType", LastPPAction.VPy (PStr "None"))]) 1700000000)
    = inl (KeyError "ipei").
Proof.
  assert (Dict.wf [("ppn", LastPPAction.VPy (PStr "5"));
                   ("trType", LastPPAction.VPy (PStr "None"))]) as Hwf.
  { apply NoDup_cons. split; [|apply NoDup_singleton].
    intros H. apply list_elem_of_singleton in H. discriminate. }
  assert (∀ k, k ≠ "localTimeStamp" → k ≠ "_ommclient" → k ≠ "_changes" →
               k ∉ ["localTimeStamp"; "_ommclient"; "_changes"]) as Hout.
  { intros k H1 H2 H3 Hin.
    repeat (apply elem_of_cons in Hin as [Hin|Hin]; [done|]).
    by apply elem_of_nil in Hin. }
  destruct (fresh_action_reads _ 1700000000 Hwf) as (Hget & _ & Hclass & Herr).
  split; [|split; [|split]].
  - apply Hget; [reflexivity | discriminate | reflexivity].
  - apply Hclass; [reflexivity | reflexivity | by apply Hout].
  - apply Hclass; [reflexivity | reflexivity | by apply Hout].
  - apply Herr; reflexivity.
Defined.

Lemma uid_is_assigned_once_witness :
  ∃ self',
    LastPPAction.__setattr__ "uid" (LastPPAction.VPy (PStr "7"))
      (LastPPAction.__init__ (Some [("ppn", LastPPAction.VPy (PStr "5"))]) 0)
    = inr self'
    ∧ LastPPAction.getattr "uid" self' = inr (LastPPAction.VPy (PStr "7"))
    ∧ LastPPAction.getattr "_changes" self'
      = inr (LastPPAction.VDict (Dict.set "uid" (LastPPAction.VPy (PStr "7")) []))
    ∧ ∀ v', LastPPAction.__setattr__ "uid" v' self'
            = inl (Exception "Cannot change uid !").
Proof.
  apply (uid_is_assigned_once
           (LastPPAction.__init__ (Some [("ppn", LastPPAction.VPy (PStr "5"))]) 0)
           [] (LastPPAction.VPy (PStr "7"))).
  - vm_compute. reflexivity.
  - by apply LastPPActionFacts.init_lock.
  - by apply LastPPActionFacts.init_changes.
Defined.

Lemma get_attributes_returns_private_fields_witness :
  get_attributes
    (LastPPAction.__init__
       (Some [("ppn", LastPPAction.VPy (PStr "5"));
              ("trType", LastPPAction.VPy (PStr "None"))]) 0)
  = {[ "_ommclient" := LastPPAction.VClient; "_changes" := LastPPAction.VDict [] ]}.
Proof.
  apply (get_attributes_returns_private_fields
           [("ppn", LastPPAction.VPy (PStr "5"));
            ("trType", LastPPAction.VPy (PStr "None"))] 0).
  by repeat constructor.
Defined.

Lemma last_action_outcomes_witness :
  run Loopback.toxml Loopback.parseString
    (answers [("GetLastPPDevAction", last_action_doc)]) 1
    (get_last_pp_dev_action Loopback.toxml Loopback.parseString (PInt 1) 1700000000
       running)
  = Some (Returned
            (Some (LastPPAction.__init__
                     (Some [("ppn", LastPPAction.VPy (PStr "9"));
                            ("trType", LastPPAction.VPy (PStr "None"))])
                     1700000000))
            (answered
               (framed (construct_message Loopback.toxml "GetLastPPDevAction"
                          (Some [("seq", PInt 0); ("ppn", PInt 1)]) None))
               (with_sequence 1 running))).
Proof.
  apply (last_action_outcomes Loopback.toxml Loopback.parseString
           (answers [("GetLastPPDevAction", last_action_doc)]) running (PInt 1)
           1700000000 [("seq", "0")]
           [("pp", One [("ppn", "9"); ("trType", "None")])]).
  - apply idle_running.
  - by apply AnswersFacts.answers_nonempty with last_action_doc.
  - by apply AnswersFacts.answers_parses with last_action_doc.
  - reflexivity.
Defined.
